(** * zlog: a fluent builder over Go's structured logger

    A shallow embedding of [zlog.go] (the version with per-level
    configuration: [SetConfig], [WithSource], [WithCallStack], ...) and
    the properties of its attribute builder, its frame resolver
    [getSourceString] and its bounded call-stack walk.

    Conventions of the embedding:
    - Go's [int] and [slog.Level] are [Z].  The counter of the call-stack
      walk stays below the bound it is compared with and
      [moduleSeparator + 1] is at most a string length, so neither can
      wrap; the sum [2 + skip] of [WithSourceSkip] is written without
      wrap-around and no property below depends on it;
    - Go strings are byte strings, here [string];
    - a Go panic is the [Panic] outcome of the [outcome] monad;
    - the [*zlogImpl] receiver is threaded explicitly: a method takes the
      builder and returns the updated builder;
    - the package variable [globalConfig] and the state of the Go runtime
      (the goroutine's call stack and the symbol table) are explicit
      arguments. *)

From Stdlib Require Import ZArith Lia DecimalString Ascii.
From stdpp Require Import base gmap strings list.

Local Open Scope Z_scope.

(** ** Panics *)

Inductive panic : Type :=
| SliceBoundsOutOfRange
| NilPointerDereference.

Inductive outcome (A : Type) : Type :=
| Ok (a : A)
| Panic (p : panic).

Arguments Ok {A} a.
Arguments Panic {A} p.

#[global] Instance outcome_ret : MRet outcome := fun A a => Ok a.

#[global] Instance outcome_bind : MBind outcome := fun A B f m =>
  match m with
  | Ok a => f a
  | Panic p => Panic p
  end.

(** ** The parts of Go's [strings] and [strconv] packages the logger uses *)

Module strings.

(** [strings.HasPrefix(s, prefix)] *)
Definition HasPrefix (s prefix : string) : bool := String.prefix prefix s.

(** [strings.Join(elems, sep)] *)
Fixpoint Join (elems : list string) (sep : string) : string :=
  match elems with
  | [] => ""
  | [e] => e
  | e :: rest => e +:+ sep +:+ Join rest sep
  end.

Fixpoint LastIndex_from (s substr : string) (i : Z) : Z :=
  match s with
  | EmptyString => if String.prefix substr s then i else -1
  | String _ s' =>
      let later := LastIndex_from s' substr (i + 1) in
      if later =? -1
      then (if String.prefix substr s then i else -1)
      else later
  end.

(** [strings.LastIndex(s, substr)]: the index of the last instance of
    [substr] in [s], or [-1]. *)
Definition LastIndex (s substr : string) : Z := LastIndex_from s substr 0.

End strings.

Module strconv.

(** [strconv.FormatInt(i, 10)] *)
Definition FormatInt (i : Z) : string := NilZero.string_of_int (Z.to_int i).

End strconv.

Fixpoint string_drop (n : nat) (s : string) : string :=
  match n, s with
  | O, _ => s
  | S n', String _ s' => string_drop n' s'
  | S _, EmptyString => EmptyString
  end.

(** The slice expression [s[i:]]; it panics when [i] is out of range. *)
Definition sliceFrom (s : string) (i : Z) : outcome string :=
  if (i <? 0) || (Z.of_nat (String.length s) <? i)
  then Panic SliceBoundsOutOfRange
  else Ok (string_drop (Z.to_nat i) s).

(** ** The Go runtime, as far as the logger observes it *)

(** [*runtime.Func]: only [Name()] is used. *)
Record Func : Type := { Name : string }.

(** [runtime.Caller(skip)] returns [(pc, file, line, ok)];
    [runtime.FuncForPC(pc)] returns a [*Func] or [nil].  The call stack is
    the one seen from [getSourceString], which is where the logger calls
    [runtime.Caller]: skip 0 is [getSourceString] itself, skip 1 the
    method that called it, skip 2 that method's caller. *)
Record Runtime : Type := {
  Caller : Z -> Z * string * Z * bool;
  FuncForPC : Z -> option Func
}.

(** A runtime whose stack is a list of [(pc, file, line)] (innermost frame
    first) and whose symbol table is an association list. *)
Definition stackRuntime (stack : list (Z * string * Z))
    (symbols : list (Z * string)) : Runtime :=
  {| Caller := fun skip =>
       if skip <? 0 then (0, "", 0, false)
       else match stack !! Z.to_nat skip with
            | Some (pc, file, line) => (pc, file, line, true)
            | None => (0, "", 0, false)
            end;
     FuncForPC := fun pc =>
       match List.find (fun e => fst e =? pc) symbols with
       | Some e => Some {| Name := snd e |}
       | None => None
       end |}.

(** ** Attributes ([slog.Attr]) *)

(** A value of Go's dynamic type [any], as stored in a [context.Context];
    [nil] is the [None] of [option any]. *)
Inductive any : Type :=
| AnyString (s : string)
| AnyInt (n : Z)
| AnyBool (b : bool).

(** [slog.Value], restricted to the kinds the logger builds. *)
Inductive Value : Type :=
| StringValue (s : string)
| BoolValue (b : bool)
| StringsValue (l : list string)
| MapValue (m : gmap string any).

Record Attr : Type := { Key : string; Val : Value }.

Module slog.

Definition LevelDebug : Z := -4.
Definition LevelInfo : Z := 0.
Definition LevelWarn : Z := 4.
Definition LevelError : Z := 8.

(** [slog.String(key, value)] *)
Definition String_ (key value : string) : Attr :=
  {| Key := key; Val := StringValue value |}.

(** [slog.Bool(key, v)] *)
Definition Bool_ (key : string) (v : bool) : Attr :=
  {| Key := key; Val := BoolValue v |}.

(** [slog.Any(key, value)] for a [[]string] *)
Definition AnyStrings (key : string) (value : list string) : Attr :=
  {| Key := key; Val := StringsValue value |}.

(** [slog.Any(key, value)] for a [map[string]any] *)
Definition AnyMap (key : string) (value : gmap string any) : Attr :=
  {| Key := key; Val := MapValue value |}.

End slog.

(** ** [context.Context] and [error] *)

(** The interface [context.Context]: only [Value(key)] is used, with keys
    of type [string]; a [nil] result is [None]. *)
Record Context : Type := { Value_ : string -> option any }.

(** [context.Background()] *)
Definition Background : Context := {| Value_ := fun _ => None |}.

(** [context.WithValue(parent, key, val)] for a [string] key *)
Definition WithValue (parent : Context) (key : string) (val : option any)
    : Context :=
  {| Value_ := fun k => if String.eqb k key then val else Value_ parent k |}.

(** A non-nil [error]: a value with an [Error()] method.  An argument of
    interface type [error] is an [option error], [None] being [nil]. *)
Record error : Type := { Error_ : string }.

(** ** Configuration *)

Record levelConfig : Type := {
  AutoSource : bool;
  AutoCallStack : bool;
  MaxCallStackDepth : Z
}.

Record logConfig : Type := {
  cfgDebug : levelConfig;
  cfgInfo : levelConfig;
  cfgWarn : levelConfig;
  cfgError : levelConfig
}.

(** The zero value [logConfig{}] *)
Definition zeroLevelConfig : levelConfig :=
  {| AutoSource := false; AutoCallStack := false; MaxCallStackDepth := 0 |}.

Definition zeroLogConfig : logConfig :=
  {| cfgDebug := zeroLevelConfig; cfgInfo := zeroLevelConfig;
     cfgWarn := zeroLevelConfig; cfgError := zeroLevelConfig |}.

(** [type Configurable = func(config *logConfig)] *)
Definition Configurable : Type := logConfig -> logConfig.

Definition Configure (configs : list Configurable) : logConfig :=
  fold_left (fun conf configFunc => configFunc conf) configs zeroLogConfig.

Definition setAutoSource (c : levelConfig) (b : bool) : levelConfig :=
  {| AutoSource := b; AutoCallStack := AutoCallStack c;
     MaxCallStackDepth := MaxCallStackDepth c |}.

Definition setAutoCallStack (c : levelConfig) (b : bool) : levelConfig :=
  {| AutoSource := AutoSource c; AutoCallStack := b;
     MaxCallStackDepth := MaxCallStackDepth c |}.

Definition setMaxCallStackDepth (c : levelConfig) (d : Z) : levelConfig :=
  {| AutoSource := AutoSource c; AutoCallStack := AutoCallStack c;
     MaxCallStackDepth := d |}.

(** The [switch level] shared by the three option constructors: update
    the field of the level named, leave the configuration alone for any
    other level. *)
Definition updateLevel (level : Z) (f : levelConfig -> levelConfig)
    (config : logConfig) : logConfig :=
  if level =? slog.LevelDebug then
    {| cfgDebug := f (cfgDebug config); cfgInfo := cfgInfo config;
       cfgWarn := cfgWarn config; cfgError := cfgError config |}
  else if level =? slog.LevelInfo then
    {| cfgDebug := cfgDebug config; cfgInfo := f (cfgInfo config);
       cfgWarn := cfgWarn config; cfgError := cfgError config |}
  else if level =? slog.LevelWarn then
    {| cfgDebug := cfgDebug config; cfgInfo := cfgInfo config;
       cfgWarn := f (cfgWarn config); cfgError := cfgError config |}
  else if level =? slog.LevelError then
    {| cfgDebug := cfgDebug config; cfgInfo := cfgInfo config;
       cfgWarn := cfgWarn config; cfgError := f (cfgError config) |}
  else config.

Definition AutoSourceConfig (level : Z) (autoSource : bool) : Configurable :=
  updateLevel level (fun c => setAutoSource c autoSource).

Definition AutoCallStackConfig (level : Z) (autoCallStack : bool)
    : Configurable :=
  updateLevel level (fun c => setAutoCallStack c autoCallStack).

Definition MaxCallStackDepthConfig (level : Z) (maxDepth : Z) : Configurable :=
  updateLevel level (fun c => setMaxCallStackDepth c maxDepth).

(** [defaultCallStackDepths] *)
Definition defaultCallStackDepths : gmap Z Z :=
  <[slog.LevelError := 10]>
    (<[slog.LevelWarn := 5]>
      (<[slog.LevelInfo := 5]>
        (<[slog.LevelDebug := 20]> ∅))).

(** Indexing a Go map: the zero value for a missing key. *)
Definition mapIndex (m : gmap Z Z) (k : Z) : Z := default 0 (m !! k).

(** [getMaxCallStackDepth(level)], reading [globalConfig]. *)
Definition getMaxCallStackDepth (globalConfig : logConfig) (level : Z) : Z :=
  if level =? slog.LevelDebug then
    if 0 <? MaxCallStackDepth (cfgDebug globalConfig)
    then MaxCallStackDepth (cfgDebug globalConfig)
    else mapIndex defaultCallStackDepths level
  else if level =? slog.LevelInfo then
    if 0 <? MaxCallStackDepth (cfgInfo globalConfig)
    then MaxCallStackDepth (cfgInfo globalConfig)
    else mapIndex defaultCallStackDepths level
  else if level =? slog.LevelWarn then
    if 0 <? MaxCallStackDepth (cfgWarn globalConfig)
    then MaxCallStackDepth (cfgWarn globalConfig)
    else mapIndex defaultCallStackDepths level
  else if level =? slog.LevelError then
    if 0 <? MaxCallStackDepth (cfgError globalConfig)
    then MaxCallStackDepth (cfgError globalConfig)
    else mapIndex defaultCallStackDepths level
  else 5.

(** ** The builder *)

(** The four package-level [*slog.Logger] values. *)
Inductive Logger : Type := debugLogger | infoLogger | warnLogger | errorLogger.

Record zlogImpl : Type := {
  logger : Logger;
  attrs : list Attr;
  maxCallStackDepth : Z
}.

Definition appendAttr (z : zlogImpl) (attr : Attr) : zlogImpl :=
  {| logger := logger z;
     attrs := attrs z ++ [attr];
     maxCallStackDepth := maxCallStackDepth z |}.

(** [getSourceString(skip)].  The [strings.Builder] is the string built
    so far. *)
Definition getSourceString (rt : Runtime) (skip : Z) : outcome (string * bool) :=
  let '(pc, file, line, ok) := Caller rt skip in
  if negb ok then Ok ("", false)
  else
    funcName ←
      match FuncForPC rt pc with
      | None => Ok "?"
      | Some fn =>
          let funcName := Name fn in
          let moduleSeparator := strings.LastIndex funcName "/" in
          if negb (moduleSeparator =? -1)
          then sliceFrom funcName (moduleSeparator + 1)
          else Ok funcName
      end;
    let b := "" in
    let b := b +:+ "#" in
    let b := b +:+ funcName in
    let b := b +:+ " @ " in
    let b := b +:+ file in
    let b := b +:+ ":" in
    let b := b +:+ strconv.FormatInt line in
    Ok (b, true).

(** The state of the loop shared by [WithCallStack] and
    [applyAutoFeatures]: the slice [callStack] under construction and,
    as a ghost component the Go code does not have, the [skip] values
    that were handed to [getSourceString], in call order. *)
Record walk : Type := {
  callStack : list string;
  probed : list Z
}.

(** [for skip := start; skip < maxDepth; skip++ { ... }], entered at
    [skip].  [fuel] bounds the number of iterations; the callers give
    [maxDepth - start], which the loop cannot exceed
    (see [callStackLoop_fuel]). *)
Fixpoint callStackLoop (rt : Runtime) (maxDepth : Z) (fuel : nat)
    (skip : Z) (w : walk) : outcome walk :=
  match fuel with
  | O => Ok w
  | S fuel' =>
      if negb (skip <? maxDepth) then Ok w
      else
        '(current, ok) ← getSourceString rt skip;
        let w := {| callStack := callStack w; probed := probed w ++ [skip] |} in
        if negb ok then
          (* continue *)
          callStackLoop rt maxDepth fuel' (skip + 1) w
        else
          let w := {| callStack := callStack w ++ [current];
                      probed := probed w |} in
          if strings.HasPrefix current "#main.main" then
            (* break *)
            Ok w
          else callStackLoop rt maxDepth fuel' (skip + 1) w
  end.

(** The whole loop, from [callStack := make([]string, 0)] on. *)
Definition collectCallStack (rt : Runtime) (start maxDepth : Z) : outcome walk :=
  callStackLoop rt maxDepth (Z.to_nat (maxDepth - start)) start
    {| callStack := []; probed := [] |}.

(** The [for _, key := range keys] loop of [Context], from
    [contextMap := make(map[string]any, len(keys))] on. *)
Definition buildContextMap (ctx : Context) (keys : list string)
    : gmap string any :=
  fold_left
    (fun (contextMap : gmap string any) key =>
       let value := Value_ ctx key in
       match value with
       | Some v => <[key := v]> contextMap
       | None => contextMap
       end)
    keys ∅.

Definition Context_ (z : zlogImpl) (ctx : Context) (keys : list string)
    : zlogImpl :=
  let contextMap := buildContextMap ctx keys in
  if (size contextMap =? 0)%nat then z
  else appendAttr z (slog.AnyMap "app_ctx" contextMap).

Definition KeyValue (z : zlogImpl) (key value : string) : zlogImpl :=
  appendAttr z (slog.String_ key value).

Definition Segment (z : zlogImpl) (mainSegment : string)
    (detail : list string) : zlogImpl :=
  let mainSegment :=
    if (0 <? length detail)%nat
    then mainSegment +:+ "/" +:+ strings.Join detail "/"
    else mainSegment in
  appendAttr z (slog.String_ "segment" mainSegment).

(** [err.Error()] on an interface value: a nil interface panics. *)
Definition callError (err : option error) : outcome string :=
  match err with
  | Some e => Ok (Error_ e)
  | None => Panic NilPointerDereference
  end.

Definition WithError (z : zlogImpl) (err : option error) : outcome zlogImpl :=
  msg ← callError err;
  Ok (appendAttr z (slog.String_ "error_msg" msg)).

Definition Err (z : zlogImpl) (err : option error) : outcome zlogImpl :=
  WithError z err.

Definition WithSource (rt : Runtime) (z : zlogImpl) : outcome zlogImpl :=
  '(source, ok) ← getSourceString rt 2;
  if negb ok then Ok z
  else Ok (appendAttr z (slog.String_ "source" source)).

Definition WithSourceSkip (rt : Runtime) (z : zlogImpl) (skip : Z)
    : outcome zlogImpl :=
  '(source, ok) ← getSourceString rt (2 + skip);
  if negb ok then Ok z
  else Ok (appendAttr z (slog.String_ "source" source)).

Definition WithCallStack (rt : Runtime) (z : zlogImpl) : outcome zlogImpl :=
  w ← collectCallStack rt 2 (maxCallStackDepth z);
  Ok (appendAttr z (slog.AnyStrings "callstack" (callStack w))).

Definition Alert (z : zlogImpl) : zlogImpl :=
  appendAttr z (slog.Bool_ "alert" true).

(** [applyAutoFeatures(level)], reading [globalConfig]. *)
Definition applyAutoFeatures (globalConfig : logConfig) (rt : Runtime)
    (z : zlogImpl) (level : Z) : outcome zlogImpl :=
  let '(autoSource, autoCallStack) :=
    if level =? slog.LevelDebug then
      (AutoSource (cfgDebug globalConfig), AutoCallStack (cfgDebug globalConfig))
    else if level =? slog.LevelInfo then
      (AutoSource (cfgInfo globalConfig), AutoCallStack (cfgInfo globalConfig))
    else if level =? slog.LevelWarn then
      (AutoSource (cfgWarn globalConfig), AutoCallStack (cfgWarn globalConfig))
    else if level =? slog.LevelError then
      (AutoSource (cfgError globalConfig), AutoCallStack (cfgError globalConfig))
    else (false, false) in
  z ←
    (if autoSource then
       '(source, ok) ← getSourceString rt 3;
       if (ok : bool) then Ok (appendAttr z (slog.String_ "source" source)) else Ok z
     else Ok z);
  z ←
    (if autoCallStack then
       w ← collectCallStack rt 3 (maxCallStackDepth z);
       Ok (appendAttr z (slog.AnyStrings "callstack" (callStack w)))
     else Ok z);
  (Ok z : outcome zlogImpl).

Definition newLogger (globalConfig : logConfig) (rt : Runtime)
    (l : Logger) (level : Z) : outcome zlogImpl :=
  let z := {| logger := l; attrs := [];
              maxCallStackDepth := getMaxCallStackDepth globalConfig level |} in
  applyAutoFeatures globalConfig rt z level.

Definition Debug (globalConfig : logConfig) (rt : Runtime) : outcome zlogImpl :=
  newLogger globalConfig rt debugLogger slog.LevelDebug.

Definition Info (globalConfig : logConfig) (rt : Runtime) : outcome zlogImpl :=
  newLogger globalConfig rt infoLogger slog.LevelInfo.

Definition Warn (globalConfig : logConfig) (rt : Runtime) : outcome zlogImpl :=
  newLogger globalConfig rt warnLogger slog.LevelWarn.

Definition Error (globalConfig : logConfig) (rt : Runtime) : outcome zlogImpl :=
  newLogger globalConfig rt errorLogger slog.LevelError.

(** ** Observations on the walk, used to state its properties *)

(** The frame string the resolver yields at [skip], if it reports one. *)
Definition frameAt (rt : Runtime) (skip : Z) : option string :=
  match getSourceString rt skip with
  | Ok (current, true) => Some current
  | _ => None
  end.

(** The test that ends the walk. *)
Definition isEntryFrame (current : string) : bool :=
  strings.HasPrefix current "#main.main".

(** The walk ends at [skip]: a frame is found there and it is the entry
    point. *)
Definition stopsAt (rt : Runtime) (skip : Z) : bool :=
  match frameAt rt skip with
  | Some current => isEntryFrame current
  | None => false
  end.

(** Number of iterations the loop runs when entered at [skip] with
    [fuel] values of [skip] left below the bound. *)
Fixpoint probeCount (rt : Runtime) (fuel : nat) (skip : Z) : nat :=
  match fuel with
  | O => O
  | S fuel' =>
      if stopsAt rt skip then 1%nat
      else S (probeCount rt fuel' (skip + 1))
  end.

(** Number of [skip] values the whole walk tries. *)
Definition walkLength (rt : Runtime) (start maxDepth : Z) : Z :=
  Z.of_nat (probeCount rt (Z.to_nat (maxDepth - start)) start).

(** ** The segment path as the test suite expects it

    [TestEdgeCaseSegmentWithEmptyDetail] and
    [TestSegmentMultipleEmptyDetails] expect empty detail segments to be
    dropped before joining.  [SegmentFiltered] is that behaviour, for
    comparison with [Segment]. *)
Definition SegmentFiltered (z : zlogImpl) (mainSegment : string)
    (detail : list string) : zlogImpl :=
  let kept := List.filter (fun d => negb (String.eqb d "")) detail in
  let mainSegment :=
    if (0 <? length kept)%nat
    then mainSegment +:+ "/" +:+ strings.Join kept "/"
    else mainSegment in
  appendAttr z (slog.String_ "segment" mainSegment).

(** ** Fixtures *)

Definition emptyLogger (l : Logger) (depth : Z) : zlogImpl :=
  {| logger := l; attrs := []; maxCallStackDepth := depth |}.

(** A goroutine stack seen from [getSourceString] inside
    [WithCallStack]: two logger frames, three application frames (the
    middle one without a symbol), then the runtime. *)
Definition orderRuntime : Runtime :=
  stackRuntime
    [(100, "/go/zlog/zlog.go", 734);
     (101, "/go/zlog/zlog.go", 541);
     (102, "/app/order.go", 42);
     (103, "/app/handler.go", 123);
     (104, "/app/main.go", 15);
     (105, "/go/src/runtime/proc.go", 250);
     (106, "/go/src/runtime/asm_amd64.s", 1650)]
    [(100, "github.com/GokselKUCUKSAHIN/zlog.getSourceString");
     (101, "github.com/GokselKUCUKSAHIN/zlog.(*zlogImpl).WithCallStack");
     (102, "example.com/app/order.ProcessOrder");
     (104, "main.main");
     (105, "runtime.main");
     (106, "runtime.goexit")].

(** A deep recursion that never reaches [main.main] within reach: every
    skip resolves to the same recursive function. *)
Definition deepRuntime : Runtime :=
  {| Caller := fun skip => (200 + skip, "/app/deep.go", 7, true);
     FuncForPC := fun _ => Some {| Name := "example.com/app/deep.Func" |} |}.

(** [orderRuntime] with the frame at skip 3 unavailable. *)
Definition gapRuntime : Runtime :=
  {| Caller := fun skip =>
       if skip =? 3 then (0, "", 0, false) else Caller orderRuntime skip;
     FuncForPC := FuncForPC orderRuntime |}.

(** The configuration of the README's error level, with a small depth. *)
Definition errorConfig : logConfig :=
  Configure
    [AutoSourceConfig slog.LevelError true;
     AutoCallStackConfig slog.LevelError true;
     MaxCallStackDepthConfig slog.LevelError 3].

(** The request context of [TestContext]. *)
Definition requestContext : Context :=
  WithValue
    (WithValue Background "userID" (Some (AnyString "12345")))
    "requestID" (Some (AnyString "req-abc-123")).

(** ** The rest of the configuration interface *)

(** [SetConfig(config)]: the new value of [globalConfig]. *)
Definition SetConfig (config : logConfig) : logConfig := config.

(** What a constructor is expected to attach for a level configured by
    [c], on a builder of depth [depth]: the source found at skip 3 when
    [AutoSource] is set, then the call stack walked from skip 3 when
    [AutoCallStack] is set.  A statement device, compared with
    [applyAutoFeatures] below. *)
Definition autoAttrs (rt : Runtime) (c : levelConfig) (depth : Z) : list Attr :=
  (if AutoSource c
   then match frameAt rt 3 with
        | Some source => [slog.String_ "source" source]
        | None => []
        end
   else [])
  ++ (if AutoCallStack c
      then [slog.AnyStrings "callstack"
              (omap (frameAt rt) (seqZ 3 (walkLength rt 3 depth)))]
      else []).

(** ** Fluent chains

    The enrichment methods of the [ZLogger] interface, each with its
    arguments; a method that reads the call stack comes with the runtime
    as seen from that call.  A chain applies them from left to right to
    the builder the previous one returned, and a panic ends it. *)
Inductive enrichment : Type :=
| CallContext (ctx : Context) (keys : list string)
| CallSegment (mainSegment : string) (detail : list string)
| CallWithError (err : option error)
| CallErr (err : option error)
| CallAlert
| CallWithSource (rt : Runtime)
| CallWithSourceSkip (rt : Runtime) (skip : Z)
| CallWithCallStack (rt : Runtime).

Definition enrich (z : zlogImpl) (e : enrichment) : outcome zlogImpl :=
  match e with
  | CallContext ctx keys => Ok (Context_ z ctx keys)
  | CallSegment mainSegment detail => Ok (Segment z mainSegment detail)
  | CallWithError err => WithError z err
  | CallErr err => Err z err
  | CallAlert => Ok (Alert z)
  | CallWithSource rt => WithSource rt z
  | CallWithSourceSkip rt skip => WithSourceSkip rt z skip
  | CallWithCallStack rt => WithCallStack rt z
  end.

Fixpoint chain (z : zlogImpl) (es : list enrichment) : outcome zlogImpl :=
  match es with
  | [] => Ok z
  | e :: es' => z' ← enrich z e; chain z' es'
  end.

(** The calls that hand a nil error to [WithError] or [Err]. *)
Definition passesNilError (e : enrichment) : bool :=
  match e with
  | CallWithError None | CallErr None => true
  | _ => false
  end.

(** ** The first version of the logger (zlog.go, lines 1 to 163)

    Its resolver returns a string only, and its walk recognises a frame
    the runtime could not supply by the string it formats to. *)

Module V1.

(** [fn.Name()] on the result of [runtime.FuncForPC]: the method accepts a
    nil receiver and returns the empty string for it. *)
Definition funcName (fn : option Func) : string :=
  match fn with
  | Some f => Name f
  | None => ""
  end.

(** [getSourceString(skip)]; [fmt.Sprintf("#%s @ %s:%d", ...)] is the
    concatenation it denotes. *)
Definition getSourceString (rt : Runtime) (skip : Z) : outcome string :=
  let '(pc, file, line, _) := Caller rt skip in
  let fn := FuncForPC rt pc in
  let funcName := funcName fn in
  let moduleSeparator := strings.LastIndex funcName "/" in
  funcName ←
    (if negb (moduleSeparator =? -1)
     then sliceFrom funcName (moduleSeparator + 1)
     else Ok funcName);
  Ok ("#" +:+ funcName +:+ " @ " +:+ file +:+ ":" +:+ strconv.FormatInt line).

Definition AddSource (rt : Runtime) (z : zlogImpl) : outcome zlogImpl :=
  source ← getSourceString rt 2;
  Ok (appendAttr z (slog.String_ "source" source)).

(** The loop of [AddCallStack], with the ghost list of skips tried. *)
Fixpoint addCallStackLoop (rt : Runtime) (maxDepth : Z) (fuel : nat)
    (skip : Z) (w : walk) : outcome walk :=
  match fuel with
  | O => Ok w
  | S fuel' =>
      if negb (skip <? maxDepth) then Ok w
      else
        current ← getSourceString rt skip;
        let w := {| callStack := callStack w; probed := probed w ++ [skip] |} in
        if String.eqb current "# @ :0" then
          (* continue *)
          addCallStackLoop rt maxDepth fuel' (skip + 1) w
        else
          let w := {| callStack := callStack w ++ [current];
                      probed := probed w |} in
          if strings.HasPrefix current "#main.main" then
            (* break *)
            Ok w
          else addCallStackLoop rt maxDepth fuel' (skip + 1) w
  end.

Definition AddCallStack (rt : Runtime) (z : zlogImpl) : outcome zlogImpl :=
  w ← addCallStackLoop rt (maxCallStackDepth z)
         (Z.to_nat (maxCallStackDepth z - 2)) 2
         {| callStack := []; probed := [] |};
  Ok (appendAttr z (slog.AnyStrings "callstack" (callStack w))).

End V1.

(** ** The third version of [Context] (zlog.go, lines 870 to 889)

    It redacts the keys listed in [sensitiveHeaders].  [strings.ToLower]
    is taken as a parameter. *)

Module V3.

Definition sensitiveHeaders : gset string :=
  list_to_set
    ["authorization"; "x-api-key"; "api-key"; "jwt"; "token"; "password";
     "credit-card"; "tckn"; "wasmjwt"; "cookie"].

Definition buildContextMap (ToLower : string -> string) (ctx : Context)
    (keys : list string) : gmap string any :=
  fold_left
    (fun (contextMap : gmap string any) key =>
       let exists_ := bool_decide (ToLower key ∈ sensitiveHeaders) in
       if exists_ then <[key := AnyString "[REDACTED]"]> contextMap
       else
         let value := Value_ ctx key in
         match value with
         | Some v => <[key := v]> contextMap
         | None => contextMap
         end)
    keys ∅.

Definition Context_ (ToLower : string -> string) (z : zlogImpl)
    (ctx : Context) (keys : list string) : zlogImpl :=
  let contextMap := buildContextMap ToLower ctx keys in
  if (size contextMap =? 0)%nat then z
  else appendAttr z (slog.AnyMap "app_ctx" contextMap).

End V3.

(** The context the redacting loop of [V3] behaves as if it had read: a
    sensitive key is bound to the marker, any other key to its value.  A
    statement device. *)
Definition redactedContext (ToLower : string -> string) (ctx : Context)
    : Context :=
  {| Value_ := fun key =>
       if bool_decide (ToLower key ∈ V3.sensitiveHeaders)
       then Some (AnyString "[REDACTED]")
       else Value_ ctx key |}.

(** Lower-casing of the ASCII letters, which is what [strings.ToLower]
    does on a string of ASCII bytes; used to instantiate the parameter of
    [V3] on such keys. *)
Fixpoint asciiToLower (s : string) : string :=
  match s with
  | EmptyString => EmptyString
  | String c s' =>
      let n := Ascii.nat_of_ascii c in
      String
        (if (65 <=? n)%nat && (n <=? 90)%nat
         then Ascii.ascii_of_nat (n + 32) else c)
        (asciiToLower s')
  end.

(** ** Facts about Go strings *)

Section GoStrings.

Lemma prefix_length (p s : string) :
  String.prefix p s = true → (String.length p ≤ String.length s)%nat.
Proof.
  revert s. induction p as [|c p IH]; intros s H; [simpl; lia|].
  destruct s as [|d s]; simpl in H; [discriminate|].
  destruct (Ascii.ascii_dec c d); [|discriminate].
  apply IH in H. simpl. lia.
Qed.

Lemma LastIndex_from_range (s substr : string) (i : Z) :
  strings.LastIndex_from s substr i = -1 ∨
  i ≤ strings.LastIndex_from s substr i
    ≤ i + Z.of_nat (String.length s) - Z.of_nat (String.length substr).
Proof.
  revert i. induction s as [|c s IH]; intros i.
  - cbn [strings.LastIndex_from].
    destruct (String.prefix substr "") eqn:Hp; [|by left].
    right. apply prefix_length in Hp. simpl in *. lia.
  - cbn [strings.LastIndex_from].
    destruct (IH (i + 1)) as [Hn|Hr].
    + rewrite Hn. simpl (-1 =? -1).
      destruct (String.prefix substr (String c s)) eqn:Hp; [|by left].
      right. apply prefix_length in Hp. lia.
    + destruct (strings.LastIndex_from s substr (i + 1) =? -1) eqn:He.
      * destruct (String.prefix substr (String c s)) eqn:Hp; [|by left].
        right. apply prefix_length in Hp. lia.
      * right. cbn [String.length]. lia.
Qed.

Lemma LastIndex_range (s substr : string) :
  strings.LastIndex s substr = -1 ∨
  0 ≤ strings.LastIndex s substr
    ≤ Z.of_nat (String.length s) - Z.of_nat (String.length substr).
Proof. apply (LastIndex_from_range s substr 0). Qed.

Lemma sliceFrom_in_range (s : string) (i : Z) :
  0 ≤ i ≤ Z.of_nat (String.length s) →
  sliceFrom s i = Ok (string_drop (Z.to_nat i) s).
Proof.
  intros [H0 H1]. unfold sliceFrom.
  destruct (i <? 0) eqn:Ha; [lia|].
  destruct (Z.of_nat (String.length s) <? i) eqn:Hb; [lia|]. done.
Qed.

Lemma string_app_nil_l (b : string) : "" +:+ b = b.
Proof. reflexivity. Qed.

Lemma string_app_cons (x : Ascii.ascii) (a b : string) :
  String x a +:+ b = String x (a +:+ b).
Proof. reflexivity. Qed.

Lemma string_app_assoc (a b c : string) : (a +:+ b) +:+ c = a +:+ (b +:+ c).
Proof.
  induction a as [|x a IH]; [by rewrite !string_app_nil_l|].
  rewrite !string_app_cons. by f_equal.
Qed.

End GoStrings.

Example LastIndex_examples :
  strings.LastIndex "example.com/app/order.ProcessOrder" "/" = 15
  ∧ strings.LastIndex "main.main" "/" = -1
  ∧ strings.Join ["users"; ""; "create"] "/" = "users//create".
Proof. repeat split; reflexivity. Qed.

(** ** The frame resolver *)

Section Resolver.

Variable rt : Runtime.

(** The function name written after ['#'] for the frame at [pc]: never a panic. *)
Lemma funcName_total (fn : Func) :
  let funcName := Name fn in
  let moduleSeparator := strings.LastIndex funcName "/" in
  ∃ short,
    (if negb (moduleSeparator =? -1)
     then sliceFrom funcName (moduleSeparator + 1)
     else Ok funcName) = Ok short.
Proof.
  intros funcName moduleSeparator.
  destruct (moduleSeparator =? -1) eqn:He; simpl; [by eexists|].
  destruct (LastIndex_range funcName "/") as [Hn|Hr].
  - fold moduleSeparator in Hn. lia.
  - fold moduleSeparator in Hr. simpl in Hr.
    eexists. apply sliceFrom_in_range. lia.
Qed.

Lemma getSourceString_not_found (skip : Z) :
  snd (Caller rt skip) = false → getSourceString rt skip = Ok ("", false).
Proof.
  unfold getSourceString. destruct (Caller rt skip) as [[[pc file] line] ok].
  simpl. by intros ->.
Qed.

Lemma getSourceString_found (skip pc : Z) (file : string) (line : Z) :
  Caller rt skip = (pc, file, line, true) →
  ∃ funcName,
    getSourceString rt skip =
      Ok ("#" +:+ funcName +:+ " @ " +:+ file +:+ ":" +:+ strconv.FormatInt line,
          true)
    ∧ (FuncForPC rt pc = None → funcName = "?").
Proof.
  intros HC. unfold getSourceString. rewrite HC. simpl negb. cbv iota.
  destruct (FuncForPC rt pc) as [fn|].
  - destruct (funcName_total fn) as [short Hs]. simpl in Hs. rewrite Hs.
    exists short. split; [|done].
    simpl. by rewrite !string_app_assoc, string_app_nil_l.
  - exists "?". split; [|done].
    simpl. by rewrite !string_app_assoc, string_app_nil_l.
Qed.

Lemma getSourceString_total (skip : Z) :
  ∃ current ok, getSourceString rt skip = Ok (current, ok).
Proof.
  destruct (Caller rt skip) as [[[pc file] line] ok] eqn:HC.
  destruct ok.
  - destruct (getSourceString_found _ _ _ _ HC) as (f & -> & _). eauto.
  - rewrite getSourceString_not_found; [eauto|]. by rewrite HC.
Qed.

Lemma getSourceString_found_iff (skip : Z) :
  (∃ current, getSourceString rt skip = Ok (current, true))
  ↔ snd (Caller rt skip) = true.
Proof.
  destruct (Caller rt skip) as [[[pc file] line] ok] eqn:HC.
  destruct ok; simpl.
  - destruct (getSourceString_found _ _ _ _ HC) as (f & -> & _).
    split; eauto.
  - rewrite getSourceString_not_found by (by rewrite HC).
    split; [intros [c Hc]; congruence | discriminate].
Qed.

Lemma frameAt_None (skip : Z) :
  frameAt rt skip = None ↔ snd (Caller rt skip) = false.
Proof.
  unfold frameAt.
  destruct (Caller rt skip) as [[[pc file] line] ok] eqn:HC.
  destruct ok; simpl.
  - destruct (getSourceString_found _ _ _ _ HC) as (f & -> & _).
    split; discriminate.
  - rewrite getSourceString_not_found by (by rewrite HC). done.
Qed.

Lemma getSourceString_frameAt (skip : Z) :
  getSourceString rt skip =
    Ok (match frameAt rt skip with
        | Some current => (current, true)
        | None => ("", false)
        end).
Proof.
  unfold frameAt.
  destruct (Caller rt skip) as [[[pc file] line] ok] eqn:HC.
  destruct ok.
  - by destruct (getSourceString_found _ _ _ _ HC) as (f & -> & _).
  - by rewrite getSourceString_not_found by (by rewrite HC).
Qed.

End Resolver.

(** ** The call-stack walk *)

Section Walk.

Variable rt : Runtime.
Variable maxDepth : Z.

Lemma seqZ_succ_cons (m : Z) (k : nat) :
  seqZ m (Z.of_nat (S k)) = m :: seqZ (m + 1) (Z.of_nat k).
Proof.
  rewrite seqZ_cons by lia. f_equal. f_equal; lia.
Qed.

(** One iteration, with the resolver's answer read through [frameAt]. *)
Lemma callStackLoop_unfold (fuel : nat) (skip : Z) (w : walk) :
  skip < maxDepth →
  callStackLoop rt maxDepth (S fuel) skip w =
    match frameAt rt skip with
    | None =>
        callStackLoop rt maxDepth fuel (skip + 1)
          {| callStack := callStack w; probed := probed w ++ [skip] |}
    | Some current =>
        if isEntryFrame current
        then Ok {| callStack := callStack w ++ [current];
                   probed := probed w ++ [skip] |}
        else callStackLoop rt maxDepth fuel (skip + 1)
               {| callStack := callStack w ++ [current];
                  probed := probed w ++ [skip] |}
    end.
Proof.
  intros Hlt. cbn [callStackLoop].
  destruct (skip <? maxDepth) eqn:Hb; [|lia]. cbn [negb].
  rewrite getSourceString_frameAt.
  destruct (frameAt rt skip) as [current|]; reflexivity.
Qed.

Lemma callStackLoop_exit (fuel : nat) (skip : Z) (w : walk) :
  maxDepth ≤ skip → callStackLoop rt maxDepth fuel skip w = Ok w.
Proof.
  intros Hge. destruct fuel; [done|]. cbn [callStackLoop].
  destruct (skip <? maxDepth) eqn:Hb; [lia|]. done.
Qed.

(** The fuel the callers pass is enough: more fuel changes nothing. *)
Lemma callStackLoop_fuel (fuel : nat) (skip : Z) (w : walk) :
  (Z.to_nat (maxDepth - skip) ≤ fuel)%nat →
  callStackLoop rt maxDepth fuel skip w =
    callStackLoop rt maxDepth (Z.to_nat (maxDepth - skip)) skip w.
Proof.
  revert skip w. induction fuel as [|fuel IH]; intros skip w Hf.
  - by replace (Z.to_nat (maxDepth - skip)) with 0%nat by lia.
  - destruct (Z_lt_ge_dec skip maxDepth) as [Hlt|Hge].
    + replace (Z.to_nat (maxDepth - skip))
        with (S (Z.to_nat (maxDepth - (skip + 1)))) by lia.
      rewrite !callStackLoop_unfold by done.
      destruct (frameAt rt skip) as [current|];
        [destruct (isEntryFrame current); [done|]|]; apply IH; lia.
    + rewrite !callStackLoop_exit by lia. done.
Qed.

Lemma callStackLoop_run (fuel : nat) (skip : Z) (w : walk) :
  Z.of_nat fuel ≤ Z.max 0 (maxDepth - skip) →
  callStackLoop rt maxDepth fuel skip w =
    Ok {| callStack :=
            callStack w
              ++ omap (frameAt rt) (seqZ skip (Z.of_nat (probeCount rt fuel skip)));
          probed :=
            probed w ++ seqZ skip (Z.of_nat (probeCount rt fuel skip)) |}.
Proof.
  revert skip w. induction fuel as [|fuel IH]; intros skip w Hf.
  - cbn. rewrite !app_nil_r. by destruct w.
  - rewrite callStackLoop_unfold by lia.
    cbn [probeCount]. unfold stopsAt.
    destruct (frameAt rt skip) as [current|] eqn:Hfr.
    + destruct (isEntryFrame current) eqn:He.
      * rewrite seqZ_succ_cons. change (seqZ (skip + 1) (Z.of_nat 0)) with (@nil Z).
        cbn [omap list_omap]. by rewrite Hfr.
      * rewrite IH by lia. rewrite seqZ_succ_cons. cbn [omap list_omap].
        rewrite Hfr. cbn [callStack probed].
        by rewrite <- !app_assoc.
    + rewrite IH by lia. rewrite seqZ_succ_cons. cbn [omap list_omap].
      rewrite Hfr. cbn [callStack probed].
      by rewrite <- !app_assoc.
Qed.

Lemma probeCount_le (fuel : nat) (skip : Z) :
  (probeCount rt fuel skip ≤ fuel)%nat.
Proof.
  revert skip. induction fuel as [|fuel IH]; intros skip; cbn; [lia|].
  destruct (stopsAt rt skip); [lia|]. specialize (IH (skip + 1)). lia.
Qed.

Lemma probeCount_no_stop (fuel : nat) (skip : Z) :
  (∀ k, skip ≤ k < skip + Z.of_nat fuel → stopsAt rt k = false) →
  probeCount rt fuel skip = fuel.
Proof.
  revert skip. induction fuel as [|fuel IH]; intros skip H; cbn; [done|].
  rewrite H by lia. f_equal. apply IH. intros k Hk. apply H. lia.
Qed.

Lemma probeCount_first_stop (fuel : nat) (skip k : Z) :
  skip ≤ k < skip + Z.of_nat fuel →
  stopsAt rt k = true →
  (∀ j, skip ≤ j < k → stopsAt rt j = false) →
  Z.of_nat (probeCount rt fuel skip) = k - skip + 1.
Proof.
  revert skip. induction fuel as [|fuel IH]; intros skip Hk Hs Hb; [lia|].
  cbn [probeCount].
  destruct (Z.eq_dec skip k) as [->|Hne].
  - rewrite Hs. lia.
  - rewrite Hb by lia.
    rewrite Nat2Z.inj_succ, (IH (skip + 1)); [lia|lia|done|].
    intros j Hj. apply Hb. lia.
Qed.

Lemma probeCount_before_last (fuel : nat) (skip j : Z) :
  skip ≤ j < skip + Z.of_nat (probeCount rt fuel skip) - 1 →
  stopsAt rt j = false.
Proof.
  revert skip. induction fuel as [|fuel IH]; intros skip; cbn [probeCount];
    [lia|].
  destruct (stopsAt rt skip) eqn:Hs; [lia|].
  intros Hj. destruct (Z.eq_dec skip j) as [->|Hne]; [done|].
  apply (IH (skip + 1)). lia.
Qed.

Lemma probeCount_stop_or_full (fuel : nat) (skip : Z) :
  probeCount rt fuel skip = fuel
  ∨ stopsAt rt (skip + Z.of_nat (probeCount rt fuel skip) - 1) = true.
Proof.
  revert skip. induction fuel as [|fuel IH]; intros skip; cbn [probeCount];
    [by left|].
  destruct (stopsAt rt skip) eqn:Hs.
  - right. by replace (skip + Z.of_nat 1 - 1) with skip by lia.
  - destruct (IH (skip + 1)) as [->|Hr]; [by left|right].
    by replace (skip + Z.of_nat (S (probeCount rt fuel (skip + 1))) - 1)
      with (skip + 1 + Z.of_nat (probeCount rt fuel (skip + 1)) - 1) by lia.
Qed.

End Walk.

(** The walk, in closed form. *)
Lemma collectCallStack_run (rt : Runtime) (start maxDepth : Z) :
  collectCallStack rt start maxDepth =
    let n := Z.of_nat (probeCount rt (Z.to_nat (maxDepth - start)) start) in
    Ok {| callStack := omap (frameAt rt) (seqZ start n);
          probed := seqZ start n |}.
Proof.
  unfold collectCallStack. rewrite callStackLoop_run by lia. done.
Qed.

Lemma collectCallStack_walk (rt : Runtime) (start maxDepth : Z) :
  collectCallStack rt start maxDepth =
    Ok {| callStack :=
            omap (frameAt rt) (seqZ start (walkLength rt start maxDepth));
          probed := seqZ start (walkLength rt start maxDepth) |}.
Proof. apply collectCallStack_run. Qed.

Lemma walkLength_range (rt : Runtime) (start maxDepth : Z) :
  0 ≤ walkLength rt start maxDepth ≤ Z.max 0 (maxDepth - start).
Proof.
  unfold walkLength.
  pose proof (probeCount_le rt (Z.to_nat (maxDepth - start)) start). lia.
Qed.

Lemma walkLength_pos (rt : Runtime) (start maxDepth : Z) :
  start < maxDepth → 1 ≤ walkLength rt start maxDepth.
Proof.
  intros Hlt. unfold walkLength.
  destruct (Z.to_nat (maxDepth - start)) as [|fuel] eqn:Hf; [lia|].
  cbn [probeCount]. destruct (stopsAt rt start); lia.
Qed.

Lemma walkLength_stop_or_full (rt : Runtime) (start maxDepth : Z) :
  walkLength rt start maxDepth = Z.max 0 (maxDepth - start)
  ∨ stopsAt rt (start + walkLength rt start maxDepth - 1) = true.
Proof.
  unfold walkLength.
  destruct (probeCount_stop_or_full rt (Z.to_nat (maxDepth - start)) start)
    as [->|Hs]; [left; lia|by right].
Qed.

Lemma walkLength_first_stop (rt : Runtime) (start maxDepth k : Z) :
  start ≤ k < maxDepth →
  stopsAt rt k = true →
  (∀ j, start ≤ j < k → stopsAt rt j = false) →
  walkLength rt start maxDepth = k - start + 1.
Proof.
  intros Hk Hs Hb. unfold walkLength.
  apply probeCount_first_stop; [lia|done|done].
Qed.

(** The walk gets at least as far as any [skip] below the bound that no
    entry frame precedes. *)
Lemma walkLength_reaches (rt : Runtime) (start maxDepth k : Z) :
  start ≤ k < maxDepth →
  (∀ j, start ≤ j < k → stopsAt rt j = false) →
  k - start + 1 ≤ walkLength rt start maxDepth.
Proof.
  intros Hk Hb.
  destruct (walkLength_stop_or_full rt start maxDepth) as [E|Hs]; [lia|].
  pose proof (walkLength_range rt start maxDepth) as Hr.
  destruct (Z_lt_ge_dec (start + walkLength rt start maxDepth - 1) k)
    as [Hlt|Hge]; [|lia].
  pose proof (walkLength_pos rt start maxDepth) as Hp.
  rewrite Hb in Hs by lia. discriminate.
Qed.

Lemma length_omap_le {A B} (f : A → option B) (l : list A) :
  (length (omap f l) ≤ length l)%nat.
Proof.
  induction l as [|x l IH]; cbn [omap list_omap]; [simpl; lia|].
  destruct (f x); simpl; lia.
Qed.

Lemma omap_filter_None {A B} (f : A → option B) (P : A → Prop)
    `{∀ x, Decision (P x)} (l : list A) :
  (∀ x, ¬ P x → f x = None) →
  omap f (filter P l) = omap f l.
Proof.
  intros Hf. induction l as [|x l IH]; [done|].
  rewrite filter_cons. destruct (decide (P x)) as [HP|HP].
  - cbn [omap list_omap]. by rewrite IH.
  - cbn [omap list_omap]. rewrite (Hf x HP). done.
Qed.

Lemma frames_before_stop (rt : Runtime) (start n : Z) :
  (∀ j, start ≤ j < start + n → stopsAt rt j = false) →
  Forall (λ current, isEntryFrame current = false)
    (omap (frameAt rt) (seqZ start n)).
Proof.
  intros Hb. apply Forall_forall. intros current Hin.
  apply list_elem_of_omap in Hin as (j & Hj & Hf).
  apply elem_of_seqZ in Hj. specialize (Hb j Hj).
  unfold stopsAt in Hb. by rewrite Hf in Hb.
Qed.

Lemma collectCallStack_length (rt : Runtime) (start maxDepth : Z) :
  ∃ w, collectCallStack rt start maxDepth = Ok w
    ∧ Z.of_nat (length (callStack w)) ≤ Z.max 0 (maxDepth - start).
Proof.
  eexists. split; [apply collectCallStack_walk|]. cbn [callStack].
  pose proof (walkLength_range rt start maxDepth) as Hr.
  pose proof (length_omap_le (frameAt rt)
                (seqZ start (walkLength rt start maxDepth))) as Hl.
  rewrite length_seqZ in Hl. lia.
Qed.

Lemma collectCallStack_empty (rt : Runtime) (start maxDepth : Z) :
  maxDepth ≤ start →
  collectCallStack rt start maxDepth = Ok {| callStack := []; probed := [] |}.
Proof.
  intros Hle. unfold collectCallStack.
  by replace (Z.to_nat (maxDepth - start)) with 0%nat by lia.
Qed.

(** ** The builder's use of the walk *)

Lemma WithCallStack_collect (rt : Runtime) (z : zlogImpl) (w : walk) :
  collectCallStack rt 2 (maxCallStackDepth z) = Ok w →
  WithCallStack rt z =
    Ok (appendAttr z (slog.AnyStrings "callstack" (callStack w))).
Proof. unfold WithCallStack. by intros ->. Qed.

Lemma getMaxCallStackDepth_pos (globalConfig : logConfig) (level : Z) :
  0 < getMaxCallStackDepth globalConfig level.
Proof.
  unfold getMaxCallStackDepth.
  repeat match goal with
         | |- context [if ?b then _ else _] => destruct b eqn:?
         end; try lia;
  match goal with
  | H : (level =? ?c) = true |- _ => apply Z.eqb_eq in H; subst level
  end; vm_compute; done.
Qed.

(** What the constructors attach: an optional [source], then an optional
    [callstack] collected from skip 3. *)
Lemma applyAutoFeatures_attrs (globalConfig : logConfig) (rt : Runtime)
    (z : zlogImpl) (level : Z) :
  ∃ z', applyAutoFeatures globalConfig rt z level = Ok z'
    ∧ logger z' = logger z
    ∧ maxCallStackDepth z' = maxCallStackDepth z
    ∧ ∃ src stk, attrs z' = attrs z ++ src ++ stk
        ∧ (src = [] ∨ ∃ source, frameAt rt 3 = Some source
                                ∧ src = [slog.String_ "source" source])
        ∧ (stk = [] ∨ ∃ w, collectCallStack rt 3 (maxCallStackDepth z) = Ok w
               ∧ stk = [slog.AnyStrings "callstack" (callStack w)]).
Proof.
  unfold applyAutoFeatures.
  destruct (if level =? slog.LevelDebug then _ else _)
    as [autoSource autoCallStack].
  assert (∃ z1 src, (if autoSource
            then '(source, ok) ← getSourceString rt 3;
                 if (ok : bool)
                 then Ok (appendAttr z (slog.String_ "source" source))
                 else Ok z
            else Ok z) = Ok z1
          ∧ logger z1 = logger z
          ∧ maxCallStackDepth z1 = maxCallStackDepth z
          ∧ attrs z1 = attrs z ++ src
          ∧ (src = [] ∨ ∃ source, frameAt rt 3 = Some source
                                ∧ src = [slog.String_ "source" source]))
    as (z1 & src & -> & Hl1 & Hm1 & Ha1 & Hs1).
  { destruct autoSource.
    - rewrite getSourceString_frameAt.
      destruct (frameAt rt 3) as [source|] eqn:Hf; cbn.
      + eexists _, [_]. repeat split. right. eauto.
      + exists z, []. rewrite app_nil_r. repeat split. by left.
    - exists z, []. rewrite app_nil_r. repeat split. by left. }
  cbn [mbind outcome_bind].
  destruct autoCallStack.
  - destruct (collectCallStack_length rt 3 (maxCallStackDepth z1))
      as (w & Hw & _).
    rewrite Hw. cbn [mbind outcome_bind].
    eexists. split; [reflexivity|]. cbn [logger maxCallStackDepth attrs appendAttr].
    repeat split; [done..|].
    exists src, [slog.AnyStrings "callstack" (callStack w)].
    rewrite Ha1, <- app_assoc. repeat split; [done|].
    right. exists w. by rewrite <- Hm1.
  - exists z1. split; [reflexivity|]. repeat split; [done..|].
    exists src, []. rewrite app_nil_r. repeat split; [done..|]. by left.
Qed.

(** ** Segment *)

Lemma filter_nonempty_id (detail : list string) :
  Forall (λ d, d ≠ "") detail →
  List.filter (λ d, negb (String.eqb d "")) detail = detail.
Proof.
  induction 1 as [|d detail Hd _ IH]; [done|]. cbn [List.filter].
  destruct (String.eqb d "") eqn:He.
  - by apply String.eqb_eq in He.
  - cbn [negb]. by rewrite IH.
Qed.

(** [Segment] and the filtering variant differ only on empty detail
    segments. *)
Lemma Segment_agrees_without_empty (z : zlogImpl) (mainSegment : string)
    (detail : list string) :
  Forall (λ d, d ≠ "") detail →
  Segment z mainSegment detail = SegmentFiltered z mainSegment detail.
Proof.
  intros H. unfold Segment, SegmentFiltered. by rewrite filter_nonempty_id.
Qed.

(** C1 (the code departs from it).  [Segment] joins the detail segments
    as they are, without dropping the empty ones:
    [Segment("main", "", "sub")] attaches "main//sub" where filtering
    gives "main/sub", and [Segment("api", "", "", "users", "", "create")]
    attaches "api///users//create" where filtering gives
    "api/users/create".  [Segment("solo")] attaches "solo". *)
Theorem Segment_keeps_empty_detail (z : zlogImpl) :
  Segment z "main" [""; "sub"]
    = appendAttr z (slog.String_ "segment" "main//sub")
  ∧ SegmentFiltered z "main" [""; "sub"]
    = appendAttr z (slog.String_ "segment" "main/sub")
  ∧ Segment z "api" [""; ""; "users"; ""; "create"]
    = appendAttr z (slog.String_ "segment" "api///users//create")
  ∧ SegmentFiltered z "api" [""; ""; "users"; ""; "create"]
    = appendAttr z (slog.String_ "segment" "api/users/create")
  ∧ Segment z "solo" [] = appendAttr z (slog.String_ "segment" "solo").
Proof. repeat split; reflexivity. Qed.

(** ** The bound of the walk *)

Lemma deepRuntime_frameAt (k : Z) :
  frameAt deepRuntime k = Some "#deep.Func @ /app/deep.go:7".
Proof. reflexivity. Qed.

Lemma deepRuntime_never_stops (k : Z) : stopsAt deepRuntime k = false.
Proof. reflexivity. Qed.

(** C2, as stated, fails.  On a stack where every skip resolves and no
    frame is the entry point, the walk started at skip 2 with
    [maxCallStackDepth = 5] asks the resolver at skips 2, 3 and 4 only:
    it does not go on to skip [2 + 5 - 1 = 6], and it collects 3 frames
    although 5 are available. *)
Lemma collector_stops_below_start_plus_maxDepth :
  (∀ k, stopsAt deepRuntime k = false)
  ∧ (∀ k, frameAt deepRuntime k = Some "#deep.Func @ /app/deep.go:7")
  ∧ ∃ w, collectCallStack deepRuntime 2 5 = Ok w
      ∧ probed w = [2; 3; 4]
      ∧ (probed w ≠ seqZ 2 5)
      ∧ (6 ∉ probed w)
      ∧ length (callStack w) = 3%nat.
Proof.
  split; [exact deepRuntime_never_stops|].
  split; [exact deepRuntime_frameAt|].
  eexists. split; [vm_compute; reflexivity|]. cbn [probed callStack].
  split; [reflexivity|]. split; [discriminate|].
  split; [|reflexivity].
  rewrite !elem_of_cons, elem_of_nil. lia.
Qed.

(** C2, amended.  For every start skip [start] and every [maxDepth], the
    walk hands the resolver the skip values [start, start + 1, ...] once
    each, in order, and stays below [maxDepth] itself (not below
    [start + maxDepth]): it tries [n] values with
    [0 <= n <= max 0 (maxDepth - start)], and it tries fewer than
    [max 0 (maxDepth - start)] only when the last frame tried is the
    entry point.  The call stack holds the frames found at the skips
    tried, so it has at most [n] elements. *)
Theorem collector_iterates_below_maxDepth (rt : Runtime) (start maxDepth : Z) :
  ∃ w n,
    collectCallStack rt start maxDepth = Ok w
    ∧ probed w = seqZ start n
    ∧ 0 ≤ n ≤ Z.max 0 (maxDepth - start)
    ∧ (n = Z.max 0 (maxDepth - start) ∨ stopsAt rt (start + n - 1) = true)
    ∧ callStack w = omap (frameAt rt) (probed w)
    ∧ Z.of_nat (length (callStack w)) ≤ n.
Proof.
  eexists _, (walkLength rt start maxDepth).
  split; [apply collectCallStack_walk|]. cbn [probed callStack].
  pose proof (walkLength_range rt start maxDepth) as Hr.
  repeat split; try lia.
  - apply walkLength_stop_or_full.
  - pose proof (length_omap_le (frameAt rt)
                  (seqZ start (walkLength rt start maxDepth))) as Hl.
    rewrite length_seqZ in Hl. lia.
Qed.

(** C3.  The ["callstack"] attribute has at most [maxCallStackDepth]
    elements: the one [WithCallStack] attaches, for a builder whose
    depth is not negative, and the one the constructors attach when
    [AutoCallStack] is set, whose depth is [getMaxCallStackDepth] and
    so positive whatever the configuration holds. *)
Theorem callstack_length_at_most_maxDepth (globalConfig : logConfig)
    (rt rt' : Runtime) (z : zlogImpl) (l : Logger) (level : Z) :
  0 ≤ maxCallStackDepth z →
  (∃ cs,
     WithCallStack rt z = Ok (appendAttr z (slog.AnyStrings "callstack" cs))
     ∧ Z.of_nat (length cs) ≤ maxCallStackDepth z)
  ∧ (∃ z',
       newLogger globalConfig rt' l level = Ok z'
       ∧ maxCallStackDepth z' = getMaxCallStackDepth globalConfig level
       ∧ 0 < maxCallStackDepth z'
       ∧ ∀ cs, slog.AnyStrings "callstack" cs ∈ attrs z' →
               Z.of_nat (length cs) ≤ maxCallStackDepth z').
Proof.
  intros Hz. split.
  - destruct (collectCallStack_length rt 2 (maxCallStackDepth z))
      as (w & Hw & Hl).
    exists (callStack w). split; [by apply WithCallStack_collect|lia].
  - unfold newLogger.
    pose proof (getMaxCallStackDepth_pos globalConfig level) as Hpos.
    set (z0 := {| logger := l; attrs := [];
                  maxCallStackDepth := getMaxCallStackDepth globalConfig level |}).
    destruct (applyAutoFeatures_attrs globalConfig rt' z0 level)
      as (z' & Hz' & _ & Hm & src & stk & Ha & Hsrc & Hstk).
    exists z'. split; [done|]. rewrite Hm. cbn [z0 maxCallStackDepth].
    split; [done|]. split; [done|].
    intros cs Hin. rewrite Ha in Hin. cbn [z0 attrs] in Hin.
    rewrite app_nil_l, elem_of_app in Hin. destruct Hin as [Hin|Hin].
    + destruct Hsrc as [->|(source & _ & ->)].
      * by apply elem_of_nil in Hin.
      * apply list_elem_of_singleton in Hin. discriminate.
    + destruct Hstk as [->|(w & Hw & ->)].
      * by apply elem_of_nil in Hin.
      * apply list_elem_of_singleton in Hin.
        injection Hin as ->.
        destruct (collectCallStack_length rt' 3 (maxCallStackDepth z0))
          as (w' & Hw' & Hl).
        rewrite Hw in Hw'. injection Hw' as <-.
        cbn [z0 maxCallStackDepth] in Hl. lia.
Qed.

Lemma callstack_length_at_most_maxDepth_witness :
  0 ≤ maxCallStackDepth (emptyLogger errorLogger 10)
  ∧ (∃ cs,
       WithCallStack orderRuntime (emptyLogger errorLogger 10)
         = Ok (appendAttr (emptyLogger errorLogger 10)
                 (slog.AnyStrings "callstack" cs))
       ∧ Z.of_nat (length cs) ≤ 10)
  ∧ (∃ z',
       Error errorConfig deepRuntime = Ok z'
       ∧ maxCallStackDepth z' = 3
       ∧ 0 < maxCallStackDepth z'
       ∧ ∀ cs, slog.AnyStrings "callstack" cs ∈ attrs z' →
               Z.of_nat (length cs) ≤ maxCallStackDepth z').
Proof.
  split; [cbn; lia|].
  apply (callstack_length_at_most_maxDepth errorConfig orderRuntime
           deepRuntime (emptyLogger errorLogger 10) errorLogger
           slog.LevelError).
  cbn; lia.
Defined.

(** With depth 3 the constructor's walk, which starts at skip 3, tries no
    skip at all: the attribute is attached with an empty call stack. *)
Example Error_auto_features :
  Error errorConfig deepRuntime =
    Ok {| logger := errorLogger;
          attrs := [slog.String_ "source" "#deep.Func @ /app/deep.go:7";
                    slog.AnyStrings "callstack" []];
          maxCallStackDepth := 3 |}.
Proof. vm_compute. reflexivity. Qed.

(** ** The entry-point frame *)

(** C4.  When the frame at skip [k], below the bound, is the first one
    whose string begins with "#main.main", the walk appends it and
    stops: [k] is the last skip tried, the frame is the last element of
    the call stack, and the elements before it are the frames found
    below [k], none of which begins with the marker. *)
Theorem walk_ends_with_entry_frame (rt : Runtime) (start maxDepth k : Z)
    (current : string) :
  start ≤ k < maxDepth →
  frameAt rt k = Some current →
  strings.HasPrefix current "#main.main" = true →
  (∀ j, start ≤ j < k → stopsAt rt j = false) →
  ∃ w,
    collectCallStack rt start maxDepth = Ok w
    ∧ probed w = seqZ start (k - start + 1)
    ∧ callStack w = omap (frameAt rt) (seqZ start (k - start)) ++ [current]
    ∧ last (callStack w) = Some current
    ∧ Forall (λ c, strings.HasPrefix c "#main.main" = false)
        (omap (frameAt rt) (seqZ start (k - start))).
Proof.
  intros Hk Hf He Hb.
  assert (stopsAt rt k = true) as Hs by (unfold stopsAt; by rewrite Hf).
  eexists. split; [apply collectCallStack_walk|].
  rewrite (walkLength_first_stop rt start maxDepth k) by done.
  cbn [probed callStack].
  assert (omap (frameAt rt) (seqZ start (k - start + 1)) =
          omap (frameAt rt) (seqZ start (k - start)) ++ [current]) as ->.
  { rewrite seqZ_app by lia. rewrite omap_app.
    replace (start + (k - start)) with k by lia.
    change (seqZ k 1) with [k]. cbn [omap list_omap]. by rewrite Hf. }
  split; [done|]. split; [done|]. split; [apply last_snoc|].
  apply (frames_before_stop rt start (k - start)).
  intros j Hj. apply Hb. lia.
Qed.

Lemma walk_ends_with_entry_frame_witness :
  ∃ w,
    collectCallStack orderRuntime 2 10 = Ok w
    ∧ probed w = seqZ 2 (4 - 2 + 1)
    ∧ callStack w
      = omap (frameAt orderRuntime) (seqZ 2 (4 - 2))
          ++ ["#main.main @ /app/main.go:15"]
    ∧ last (callStack w) = Some "#main.main @ /app/main.go:15"
    ∧ Forall (λ c, strings.HasPrefix c "#main.main" = false)
        (omap (frameAt orderRuntime) (seqZ 2 (4 - 2))).
Proof.
  apply (walk_ends_with_entry_frame orderRuntime 2 10 4
           "#main.main @ /app/main.go:15").
  - lia.
  - reflexivity.
  - reflexivity.
  - intros j Hj. assert (j = 2 ∨ j = 3) as [-> | ->] by lia; reflexivity.
Defined.

(** ** Frames the resolver cannot supply *)

(** C5.  When the resolver reports [found = false] at a skip [k] the
    walk gets to, it answers [("", false)] without a panic, nothing is
    appended for [k] (the call stack is made of the frames found at the
    other skips tried), and the walk goes on to [k + 1] unless [k] was
    the last skip below the bound.  [WithCallStack] still returns the
    builder, with the call stack attached. *)
Theorem unavailable_frame_is_skipped (rt : Runtime) (start maxDepth k : Z) :
  start ≤ k < maxDepth →
  snd (Caller rt k) = false →
  (∀ j, start ≤ j < k → stopsAt rt j = false) →
  ∃ w,
    collectCallStack rt start maxDepth = Ok w
    ∧ getSourceString rt k = Ok ("", false)
    ∧ k ∈ probed w
    ∧ ((k + 1) ∈ probed w ∨ k + 1 = maxDepth)
    ∧ callStack w = omap (frameAt rt) (probed w)
    ∧ callStack w = omap (frameAt rt) (filter (λ j, j ≠ k) (probed w))
    ∧ (start = 2 → ∀ z, maxCallStackDepth z = maxDepth →
         WithCallStack rt z =
           Ok (appendAttr z (slog.AnyStrings "callstack" (callStack w)))).
Proof.
  intros Hk Hc Hb.
  assert (frameAt rt k = None) as Hf by (by apply frameAt_None).
  assert (stopsAt rt k = false) as Hs by (unfold stopsAt; by rewrite Hf).
  eexists. split; [apply collectCallStack_walk|]. cbn [probed callStack].
  split; [by apply getSourceString_not_found|].
  pose proof (walkLength_range rt start maxDepth) as Hr.
  pose proof (walkLength_reaches rt start maxDepth k Hk Hb) as Hreach.
  split; [apply elem_of_seqZ; lia|].
  split.
  { destruct (Z.eq_dec (k + 1) maxDepth) as [E|Hne]; [by right|left].
    apply elem_of_seqZ.
    assert (k + 1 - start + 1 ≤ walkLength rt start maxDepth); [|lia].
    apply walkLength_reaches; [lia|].
    intros j Hj. destruct (Z.eq_dec j k) as [->|Hjk]; [done|].
    apply Hb. lia. }
  split; [done|]. split.
  { symmetry. apply omap_filter_None. intros j Hj.
    destruct (decide (j = k)) as [->|Hne]; [done|]. by destruct Hj. }
  intros -> z <-.
  by rewrite (WithCallStack_collect rt z _ (collectCallStack_walk rt 2 _)).
Qed.

Lemma unavailable_frame_is_skipped_witness :
  snd (Caller gapRuntime 3) = false
  ∧ ∃ w,
      collectCallStack gapRuntime 2 10 = Ok w
      ∧ getSourceString gapRuntime 3 = Ok ("", false)
      ∧ 3 ∈ probed w
      ∧ ((3 + 1) ∈ probed w ∨ 3 + 1 = 10)
      ∧ callStack w = omap (frameAt gapRuntime) (probed w)
      ∧ callStack w
        = omap (frameAt gapRuntime) (filter (λ j, j ≠ 3) (probed w))
      ∧ (2 = 2 → ∀ z, maxCallStackDepth z = 10 →
           WithCallStack gapRuntime z =
             Ok (appendAttr z (slog.AnyStrings "callstack" (callStack w)))).
Proof.
  split; [reflexivity|].
  apply (unavailable_frame_is_skipped gapRuntime 2 10 3).
  - lia.
  - reflexivity.
  - intros j Hj. assert (j = 2) as -> by lia. reflexivity.
Defined.

(** The walk over [gapRuntime]: the hole at skip 3 leaves no trace in the
    call stack and the entry point is still reached. *)
Example gapRuntime_callstack :
  collectCallStack gapRuntime 2 10 =
    Ok {| callStack := ["#order.ProcessOrder @ /app/order.go:42";
                        "#main.main @ /app/main.go:15"];
          probed := [2; 3; 4] |}.
Proof. vm_compute. reflexivity. Qed.

(** ** No panic *)

(** C9.  [getSourceString], the walk, [WithCallStack] and the
    constructors return normally for every runtime, skip, depth and
    configuration; with a depth that is zero or negative the walk tries
    no skip and the call stack is empty. *)
Theorem resolver_and_collector_never_panic (rt : Runtime) :
  (∀ skip, ∃ current ok, getSourceString rt skip = Ok (current, ok))
  ∧ (∀ start maxDepth, ∃ w, collectCallStack rt start maxDepth = Ok w)
  ∧ (∀ z, ∃ cs,
       WithCallStack rt z = Ok (appendAttr z (slog.AnyStrings "callstack" cs)))
  ∧ (∀ globalConfig l level, ∃ z', newLogger globalConfig rt l level = Ok z')
  ∧ (∀ start maxDepth, 0 ≤ start → maxDepth ≤ 0 →
       collectCallStack rt start maxDepth
         = Ok {| callStack := []; probed := [] |})
  ∧ (∀ z, maxCallStackDepth z ≤ 0 →
       WithCallStack rt z = Ok (appendAttr z (slog.AnyStrings "callstack" []))).
Proof.
  split; [apply getSourceString_total|].
  split; [intros; eexists; apply collectCallStack_walk|].
  split; [intros z; eexists; apply WithCallStack_collect, collectCallStack_walk|].
  split.
  { intros globalConfig l level. unfold newLogger.
    destruct (applyAutoFeatures_attrs globalConfig rt
                {| logger := l; attrs := [];
                   maxCallStackDepth := getMaxCallStackDepth globalConfig level |}
                level) as (z' & Hz' & _).
    eauto. }
  split; [intros; apply collectCallStack_empty; lia|].
  intros z Hz.
  apply (WithCallStack_collect rt z {| callStack := []; probed := [] |}).
  apply collectCallStack_empty. lia.
Qed.

Lemma resolver_and_collector_never_panic_witness :
  maxCallStackDepth (emptyLogger infoLogger (-3)) ≤ 0
  ∧ WithCallStack orderRuntime (emptyLogger infoLogger (-3))
    = Ok (appendAttr (emptyLogger infoLogger (-3))
            (slog.AnyStrings "callstack" [])).
Proof.
  split; [cbn; lia|].
  apply (resolver_and_collector_never_panic orderRuntime).
  cbn; lia.
Defined.

(** ** Depth policy *)

(** C6.  For each of the four levels [getMaxCallStackDepth] is the
    configured [MaxCallStackDepth] of that level when it is positive and
    the default otherwise (Debug 20, Info 5, Warn 5, Error 10); for any
    other level it is 5. *)
Theorem getMaxCallStackDepth_configured_or_default (globalConfig : logConfig) :
  getMaxCallStackDepth globalConfig slog.LevelDebug
    = (if 0 <? MaxCallStackDepth (cfgDebug globalConfig)
       then MaxCallStackDepth (cfgDebug globalConfig) else 20)
  ∧ getMaxCallStackDepth globalConfig slog.LevelInfo
    = (if 0 <? MaxCallStackDepth (cfgInfo globalConfig)
       then MaxCallStackDepth (cfgInfo globalConfig) else 5)
  ∧ getMaxCallStackDepth globalConfig slog.LevelWarn
    = (if 0 <? MaxCallStackDepth (cfgWarn globalConfig)
       then MaxCallStackDepth (cfgWarn globalConfig) else 5)
  ∧ getMaxCallStackDepth globalConfig slog.LevelError
    = (if 0 <? MaxCallStackDepth (cfgError globalConfig)
       then MaxCallStackDepth (cfgError globalConfig) else 10)
  ∧ ∀ level,
      level ≠ slog.LevelDebug → level ≠ slog.LevelInfo →
      level ≠ slog.LevelWarn → level ≠ slog.LevelError →
      getMaxCallStackDepth globalConfig level = 5.
Proof.
  split; [|split; [|split; [|split]]].
  - unfold getMaxCallStackDepth.
    change (slog.LevelDebug =? slog.LevelDebug) with true. cbv iota.
    by destruct (0 <? MaxCallStackDepth (cfgDebug globalConfig)).
  - unfold getMaxCallStackDepth.
    change (slog.LevelInfo =? slog.LevelDebug) with false.
    change (slog.LevelInfo =? slog.LevelInfo) with true. cbv iota.
    by destruct (0 <? MaxCallStackDepth (cfgInfo globalConfig)).
  - unfold getMaxCallStackDepth.
    change (slog.LevelWarn =? slog.LevelDebug) with false.
    change (slog.LevelWarn =? slog.LevelInfo) with false.
    change (slog.LevelWarn =? slog.LevelWarn) with true. cbv iota.
    by destruct (0 <? MaxCallStackDepth (cfgWarn globalConfig)).
  - unfold getMaxCallStackDepth.
    change (slog.LevelError =? slog.LevelDebug) with false.
    change (slog.LevelError =? slog.LevelInfo) with false.
    change (slog.LevelError =? slog.LevelWarn) with false.
    change (slog.LevelError =? slog.LevelError) with true. cbv iota.
    by destruct (0 <? MaxCallStackDepth (cfgError globalConfig)).
  - intros level Hd Hi Hw He. unfold getMaxCallStackDepth.
    apply Z.eqb_neq in Hd, Hi, Hw, He. by rewrite Hd, Hi, Hw, He.
Qed.

Lemma getMaxCallStackDepth_configured_or_default_witness :
  getMaxCallStackDepth errorConfig 12 = 5.
Proof.
  apply (getMaxCallStackDepth_configured_or_default errorConfig);
    discriminate.
Defined.

Example getMaxCallStackDepth_examples :
  getMaxCallStackDepth errorConfig slog.LevelError = 3
  ∧ getMaxCallStackDepth errorConfig slog.LevelDebug = 20
  ∧ getMaxCallStackDepth
      (Configure [MaxCallStackDepthConfig slog.LevelWarn (-5)]) slog.LevelWarn
    = 5.
Proof. repeat split; reflexivity. Qed.

(** ** Symbols the runtime cannot name *)

(** C7.  When [runtime.Caller] supplies the frame and
    [runtime.FuncForPC] returns nil, [getSourceString] writes "?" for
    the function name and reports the frame as found.  It reports
    [found = true] exactly when [runtime.Caller] supplies a frame and
    [found = false] exactly when it does not. *)
Theorem getSourceString_unknown_symbol (rt : Runtime) (skip : Z) :
  (∀ pc file line,
     Caller rt skip = (pc, file, line, true) →
     FuncForPC rt pc = None →
     getSourceString rt skip =
       Ok ("#" +:+ "?" +:+ " @ " +:+ file +:+ ":" +:+ strconv.FormatInt line,
           true))
  ∧ ((∃ current, getSourceString rt skip = Ok (current, true))
     ↔ snd (Caller rt skip) = true)
  ∧ ((∃ current, getSourceString rt skip = Ok (current, false))
     ↔ snd (Caller rt skip) = false).
Proof.
  split; [|split].
  - intros pc file line HC Hfn.
    destruct (getSourceString_found rt skip pc file line HC)
      as (funcName & -> & Hq).
    by rewrite (Hq Hfn).
  - apply getSourceString_found_iff.
  - split.
    + intros [current Hc].
      destruct (snd (Caller rt skip)) eqn:Hs; [|done].
      apply getSourceString_found_iff in Hs as [c' Hc']. congruence.
    + intros Hs. exists "". by apply getSourceString_not_found.
Qed.

Lemma getSourceString_unknown_symbol_witness :
  getSourceString orderRuntime 3 =
    Ok ("#" +:+ "?" +:+ " @ " +:+ "/app/handler.go" +:+ ":"
          +:+ strconv.FormatInt 123, true).
Proof.
  apply (proj1 (getSourceString_unknown_symbol orderRuntime 3)
           103 "/app/handler.go" 123); reflexivity.
Defined.

Example getSourceString_examples :
  getSourceString orderRuntime 2
    = Ok ("#order.ProcessOrder @ /app/order.go:42", true)
  ∧ getSourceString orderRuntime 3 = Ok ("#? @ /app/handler.go:123", true)
  ∧ getSourceString orderRuntime 40 = Ok ("", false).
Proof. repeat split; reflexivity. Qed.

(** ** Context *)

Lemma buildContextMap_fold_lookup (ctx : Context) (keys : list string)
    (m : gmap string any) (k : string) :
  fold_left
    (λ (contextMap : gmap string any) key,
       match Value_ ctx key with
       | Some v => <[key := v]> contextMap
       | None => contextMap
       end) keys m !! k
  = if decide (k ∈ keys)
    then match Value_ ctx k with Some v => Some v | None => m !! k end
    else m !! k.
Proof.
  revert m. induction keys as [|key keys IH]; intros m.
  - cbn [fold_left]. rewrite decide_False; [done|]. apply not_elem_of_nil.
  - cbn [fold_left]. rewrite IH.
    destruct (decide (k = key)) as [->|Hne].
    + rewrite (decide_True (P := key ∈ key :: keys)) by apply list_elem_of_here.
      destruct (Value_ ctx key) as [v|] eqn:Hv.
      * rewrite lookup_insert_eq. by destruct (decide (key ∈ keys)).
      * by destruct (decide (key ∈ keys)).
    + assert (match Value_ ctx key with
              | Some v => <[key:=v]> m
              | None => m
              end !! k = m !! k) as ->.
      { destruct (Value_ ctx key); [by rewrite lookup_insert_ne|done]. }
      destruct (decide (k ∈ keys)) as [Hin|Hnin].
      * rewrite decide_True; [done|]. by apply list_elem_of_further.
      * rewrite decide_False; [done|].
        rewrite elem_of_cons. intros [?|?]; done.
Qed.

Lemma buildContextMap_lookup (ctx : Context) (keys : list string)
    (key : string) (v : any) :
  buildContextMap ctx keys !! key = Some v
  ↔ key ∈ keys ∧ Value_ ctx key = Some v.
Proof.
  unfold buildContextMap. rewrite buildContextMap_fold_lookup.
  rewrite lookup_empty.
  destruct (decide (key ∈ keys)) as [Hin|Hnin].
  - destruct (Value_ ctx key) as [v'|]; split.
    + by intros [= ->].
    + by intros [_ [= ->]].
    + discriminate.
    + by intros [_ ?].
  - split; [discriminate|]. by intros [? _].
Qed.

Lemma buildContextMap_empty (ctx : Context) (keys : list string) :
  buildContextMap ctx keys = ∅
  ↔ ∀ key, key ∈ keys → Value_ ctx key = None.
Proof.
  rewrite map_empty. split.
  - intros H key Hin. destruct (Value_ ctx key) as [v|] eqn:Hv; [|done].
    specialize (H key).
    assert (buildContextMap ctx keys !! key = Some v) as E
      by (by apply buildContextMap_lookup).
    congruence.
  - intros H key.
    destruct (buildContextMap ctx keys !! key) as [v|] eqn:Hl; [|done].
    apply buildContextMap_lookup in Hl as [Hin Hv].
    rewrite (H key Hin) in Hv. discriminate.
Qed.

(** C8.  [Context] looks every key up; the map it builds binds exactly
    the keys of the list whose value is not nil, each to that value.
    When no key has a value the builder is returned as it was; otherwise
    one ["app_ctx"] attribute holding the map, which is then not empty,
    is appended after the attributes already there. *)
Theorem Context_attaches_present_keys (z : zlogImpl) (ctx : Context)
    (keys : list string) :
  (∀ key v, buildContextMap ctx keys !! key = Some v
            ↔ key ∈ keys ∧ Value_ ctx key = Some v)
  ∧ ((∀ key, key ∈ keys → Value_ ctx key = None) →
     Context_ z ctx keys = z)
  ∧ ((∃ key, key ∈ keys ∧ Value_ ctx key ≠ None) →
     Context_ z ctx keys
       = appendAttr z (slog.AnyMap "app_ctx" (buildContextMap ctx keys))
     ∧ attrs (Context_ z ctx keys)
       = attrs z ++ [slog.AnyMap "app_ctx" (buildContextMap ctx keys)]
     ∧ buildContextMap ctx keys ≠ ∅).
Proof.
  split; [apply buildContextMap_lookup|]. split.
  - intros Hnone. apply buildContextMap_empty in Hnone.
    unfold Context_. rewrite Hnone. done.
  - intros (key & Hin & Hv).
    assert (buildContextMap ctx keys ≠ ∅) as Hne.
    { intros He. apply Hv. by apply (proj1 (buildContextMap_empty ctx keys)). }
    assert (size (buildContextMap ctx keys) ≠ 0%nat) as Hsz
      by (by rewrite map_size_empty_iff).
    unfold Context_. apply Nat.eqb_neq in Hsz. rewrite Hsz. done.
Qed.

Lemma Context_attaches_present_keys_witness :
  Context_ (emptyLogger infoLogger 5) requestContext
      ["userID"; "requestID"; "missing"]
    = appendAttr (emptyLogger infoLogger 5)
        (slog.AnyMap "app_ctx"
           (buildContextMap requestContext
              ["userID"; "requestID"; "missing"])).
Proof.
  apply (Context_attaches_present_keys (emptyLogger infoLogger 5)
           requestContext ["userID"; "requestID"; "missing"]).
  exists "userID". split; [apply list_elem_of_here|discriminate].
Defined.

Example Context_examples :
  buildContextMap requestContext ["userID"; "requestID"; "missing"]
    = <["userID" := AnyString "12345"]>
        (<["requestID" := AnyString "req-abc-123"]> ∅)
  ∧ Context_ (emptyLogger infoLogger 5) requestContext ["missing"]
    = emptyLogger infoLogger 5
  ∧ Context_ (emptyLogger infoLogger 5) Background []
    = emptyLogger infoLogger 5.
Proof. repeat split; vm_compute; reflexivity. Qed.

(** ** Errors *)

(** C10.  For a non-nil error [WithError] and [Err] append one
    ["error_msg"] attribute holding [err.Error()] after the attributes
    already there.  Both call [Error()] on the argument whatever it is:
    with a nil error the call panics with a nil dereference, and no
    builder is returned. *)
Theorem WithError_requires_non_nil (z : zlogImpl) (e : error) :
  WithError z (Some e)
    = Ok (appendAttr z (slog.String_ "error_msg" (Error_ e)))
  ∧ Err z (Some e)
    = Ok (appendAttr z (slog.String_ "error_msg" (Error_ e)))
  ∧ attrs (appendAttr z (slog.String_ "error_msg" (Error_ e)))
    = attrs z ++ [slog.String_ "error_msg" (Error_ e)]
  ∧ WithError z None = Panic NilPointerDereference
  ∧ Err z None = Panic NilPointerDereference.
Proof. repeat split; reflexivity. Qed.

(** ** Configuration options *)

Lemma Configure_snoc (configs : list Configurable) (c : Configurable) :
  Configure (configs ++ [c]) = c (Configure configs).
Proof. unfold Configure. by rewrite fold_left_app. Qed.

(** The levels the switch statements know. *)
Lemma known_level_cases (level : Z) :
  level ∈ [slog.LevelDebug; slog.LevelInfo; slog.LevelWarn; slog.LevelError] →
  level = slog.LevelDebug ∨ level = slog.LevelInfo
  ∨ level = slog.LevelWarn ∨ level = slog.LevelError.
Proof. rewrite !elem_of_cons, elem_of_nil. tauto. Qed.

Lemma getMaxCallStackDepth_updateLevel_other (level level' : Z)
    (f : levelConfig → levelConfig) (config : logConfig) :
  level' ≠ level →
  getMaxCallStackDepth (updateLevel level f config) level'
    = getMaxCallStackDepth config level'.
Proof.
  intros Hne. unfold updateLevel.
  destruct (Z.eqb_spec level slog.LevelDebug) as [->|?];
    [|destruct (Z.eqb_spec level slog.LevelInfo) as [->|?];
      [|destruct (Z.eqb_spec level slog.LevelWarn) as [->|?];
        [|destruct (Z.eqb_spec level slog.LevelError) as [->|?]; [|done]]]];
    unfold getMaxCallStackDepth; cbn [cfgDebug cfgInfo cfgWarn cfgError];
    repeat match goal with
           | |- context [level' =? ?b] =>
               destruct (Z.eqb_spec level' b); [try done|]
           end; try done.
Qed.

Lemma getMaxCallStackDepth_set (level d : Z) (config : logConfig) :
  level ∈ [slog.LevelDebug; slog.LevelInfo; slog.LevelWarn; slog.LevelError] →
  getMaxCallStackDepth (MaxCallStackDepthConfig level d config) level
    = if 0 <? d then d else mapIndex defaultCallStackDepths level.
Proof.
  intros Hl. apply known_level_cases in Hl as [-> | [-> | [-> | ->]]]; reflexivity.
Qed.

(** X1.  An option [MaxCallStackDepthConfig(level, d)] with a known level
    and [d > 0], placed last in [Configure] and installed by [SetConfig],
    makes [d] the effective depth of that level and leaves the effective
    depth of every other level as the earlier options made it. *)
Theorem MaxCallStackDepthConfig_sets_effective_depth
    (configs : list Configurable) (level d : Z) :
  level ∈ [slog.LevelDebug; slog.LevelInfo; slog.LevelWarn; slog.LevelError] →
  0 < d →
  getMaxCallStackDepth
    (SetConfig (Configure (configs ++ [MaxCallStackDepthConfig level d]))) level
    = d
  ∧ ∀ level', level' ≠ level →
      getMaxCallStackDepth
        (SetConfig (Configure (configs ++ [MaxCallStackDepthConfig level d])))
        level'
      = getMaxCallStackDepth (SetConfig (Configure configs)) level'.
Proof.
  intros Hl Hd. unfold SetConfig. rewrite Configure_snoc. split.
  - rewrite getMaxCallStackDepth_set by done.
    destruct (Z.ltb_spec 0 d); [done|lia].
  - intros level' Hne. by apply getMaxCallStackDepth_updateLevel_other.
Qed.

Lemma MaxCallStackDepthConfig_sets_effective_depth_witness :
  getMaxCallStackDepth
    (SetConfig
       (Configure ([MaxCallStackDepthConfig slog.LevelError 4;
                    AutoSourceConfig slog.LevelWarn true]
                   ++ [MaxCallStackDepthConfig slog.LevelError 8])))
    slog.LevelError = 8.
Proof.
  apply (MaxCallStackDepthConfig_sets_effective_depth
           [MaxCallStackDepthConfig slog.LevelError 4;
            AutoSourceConfig slog.LevelWarn true] slog.LevelError 8).
  - rewrite !elem_of_cons. tauto.
  - lia.
Defined.

(** X2.  [MaxCallStackDepthConfig(level, d)] with [d <= 0] does not
    keep an earlier setting: the effective depth of [level] goes back to
    the default (20, 5, 5, 10) and that of the other levels is
    unchanged. *)
Theorem MaxCallStackDepthConfig_non_positive_restores_default
    (config : logConfig) (level d : Z) :
  d ≤ 0 →
  getMaxCallStackDepth (MaxCallStackDepthConfig level d config) slog.LevelDebug
    = (if level =? slog.LevelDebug then 20
       else getMaxCallStackDepth config slog.LevelDebug)
  ∧ getMaxCallStackDepth (MaxCallStackDepthConfig level d config) slog.LevelInfo
    = (if level =? slog.LevelInfo then 5
       else getMaxCallStackDepth config slog.LevelInfo)
  ∧ getMaxCallStackDepth (MaxCallStackDepthConfig level d config) slog.LevelWarn
    = (if level =? slog.LevelWarn then 5
       else getMaxCallStackDepth config slog.LevelWarn)
  ∧ getMaxCallStackDepth (MaxCallStackDepthConfig level d config) slog.LevelError
    = (if level =? slog.LevelError then 10
       else getMaxCallStackDepth config slog.LevelError).
Proof.
  intros Hd.
  assert (∀ l, l ∈ [slog.LevelDebug; slog.LevelInfo; slog.LevelWarn;
                     slog.LevelError] →
            getMaxCallStackDepth (MaxCallStackDepthConfig level d config) l
            = if level =? l then mapIndex defaultCallStackDepths l
              else getMaxCallStackDepth config l) as H.
  { intros l Hl. destruct (Z.eqb_spec level l) as [->|Hne].
    - rewrite getMaxCallStackDepth_set by done.
      destruct (Z.ltb_spec 0 d); [lia|done].
    - apply getMaxCallStackDepth_updateLevel_other. congruence. }
  repeat split; rewrite H by (rewrite !elem_of_cons; tauto);
    by destruct (level =? _).
Qed.

Lemma MaxCallStackDepthConfig_non_positive_restores_default_witness :
  getMaxCallStackDepth
    (MaxCallStackDepthConfig slog.LevelError (-1) errorConfig) slog.LevelError
  = 10.
Proof.
  apply (MaxCallStackDepthConfig_non_positive_restores_default
           errorConfig slog.LevelError (-1)).
  lia.
Defined.

Lemma getMaxCallStackDepth_updateLevel_depth (level level' : Z)
    (f : levelConfig → levelConfig) (config : logConfig) :
  (∀ c, MaxCallStackDepth (f c) = MaxCallStackDepth c) →
  getMaxCallStackDepth (updateLevel level f config) level'
    = getMaxCallStackDepth config level'.
Proof.
  intros Hf. unfold updateLevel.
  destruct (Z.eqb_spec level slog.LevelDebug) as [->|?];
    [|destruct (Z.eqb_spec level slog.LevelInfo) as [->|?];
      [|destruct (Z.eqb_spec level slog.LevelWarn) as [->|?];
        [|destruct (Z.eqb_spec level slog.LevelError) as [->|?]; [|done]]]];
    unfold getMaxCallStackDepth; cbn [cfgDebug cfgInfo cfgWarn cfgError];
    by rewrite Hf.
Qed.

(** X3.  The options touch one field: [AutoSourceConfig] and
    [AutoCallStackConfig] change no effective depth, and
    [MaxCallStackDepthConfig] changes no auto flag, of any level. *)
Theorem options_touch_one_field (config : logConfig) (level : Z)
    (b : bool) (d : Z) (level' : Z) :
  getMaxCallStackDepth (AutoSourceConfig level b config) level'
    = getMaxCallStackDepth config level'
  ∧ getMaxCallStackDepth (AutoCallStackConfig level b config) level'
    = getMaxCallStackDepth config level'
  ∧ (let config' := MaxCallStackDepthConfig level d config in
     (AutoSource (cfgDebug config'), AutoCallStack (cfgDebug config'),
      AutoSource (cfgInfo config'), AutoCallStack (cfgInfo config'),
      AutoSource (cfgWarn config'), AutoCallStack (cfgWarn config'),
      AutoSource (cfgError config'), AutoCallStack (cfgError config'))
     = (AutoSource (cfgDebug config), AutoCallStack (cfgDebug config),
        AutoSource (cfgInfo config), AutoCallStack (cfgInfo config),
        AutoSource (cfgWarn config), AutoCallStack (cfgWarn config),
        AutoSource (cfgError config), AutoCallStack (cfgError config))).
Proof.
  split; [by apply getMaxCallStackDepth_updateLevel_depth|].
  split; [by apply getMaxCallStackDepth_updateLevel_depth|].
  unfold MaxCallStackDepthConfig, updateLevel. cbv zeta.
  repeat match goal with
         | |- context [level =? ?b] => destruct (level =? b)
         end; reflexivity.
Qed.

(** ** Constructors *)

Lemma applyAutoFeatures_selected (globalConfig : logConfig) (rt : Runtime)
    (z : zlogImpl) (level : Z) (c : levelConfig) :
  (level = slog.LevelDebug ∧ c = cfgDebug globalConfig)
  ∨ (level = slog.LevelInfo ∧ c = cfgInfo globalConfig)
  ∨ (level = slog.LevelWarn ∧ c = cfgWarn globalConfig)
  ∨ (level = slog.LevelError ∧ c = cfgError globalConfig) →
  applyAutoFeatures globalConfig rt z level =
    Ok {| logger := logger z;
          attrs := attrs z ++ autoAttrs rt c (maxCallStackDepth z);
          maxCallStackDepth := maxCallStackDepth z |}.
Proof.
  intros Hsel.
  assert (applyAutoFeatures globalConfig rt z level =
          (z1 ← (if AutoSource c
                 then '(source, ok) ← getSourceString rt 3;
                      if (ok : bool)
                      then Ok (appendAttr z (slog.String_ "source" source))
                      else Ok z
                 else Ok z);
           z2 ← (if AutoCallStack c
                 then w ← collectCallStack rt 3 (maxCallStackDepth z1);
                      Ok (appendAttr z1
                            (slog.AnyStrings "callstack" (callStack w)))
                 else Ok z1);
           Ok z2)) as ->.
  { destruct Hsel as [[-> ->]|[[-> ->]|[[-> ->]|[-> ->]]]]; reflexivity. }
  unfold autoAttrs. destruct z as [l a m].
  destruct (AutoSource c), (AutoCallStack c); cbn [mbind outcome_bind];
    rewrite ?getSourceString_frameAt;
    try destruct (frameAt rt 3) as [source|]; cbn [mbind outcome_bind];
    rewrite ?collectCallStack_walk; cbn [mbind outcome_bind];
    unfold appendAttr; cbn [logger attrs maxCallStackDepth callStack];
    rewrite <- ?app_assoc, ?app_nil_r; reflexivity.
Qed.

Lemma getMaxCallStackDepth_selected (c1 c2 : logConfig) :
  (cfgDebug c1 = cfgDebug c2 →
   getMaxCallStackDepth c1 slog.LevelDebug = getMaxCallStackDepth c2 slog.LevelDebug)
  ∧ (cfgInfo c1 = cfgInfo c2 →
     getMaxCallStackDepth c1 slog.LevelInfo = getMaxCallStackDepth c2 slog.LevelInfo)
  ∧ (cfgWarn c1 = cfgWarn c2 →
     getMaxCallStackDepth c1 slog.LevelWarn = getMaxCallStackDepth c2 slog.LevelWarn)
  ∧ (cfgError c1 = cfgError c2 →
     getMaxCallStackDepth c1 slog.LevelError = getMaxCallStackDepth c2 slog.LevelError).
Proof.
  unfold getMaxCallStackDepth. repeat split; intros ->; reflexivity.
Qed.

(** X4.  A constructor returns, without a panic, the builder of its
    level's logger holding the effective depth of its level and exactly
    the automatic attributes of its level: the source found at skip 3
    when [AutoSource] is set (nothing when no frame is found), followed
    by the call stack walked from skip 3 when [AutoCallStack] is set. *)
Theorem constructors_attach_auto_features (globalConfig : logConfig)
    (rt : Runtime) :
  Debug globalConfig rt =
    (let depth := getMaxCallStackDepth globalConfig slog.LevelDebug in
     Ok {| logger := debugLogger;
           attrs := autoAttrs rt (cfgDebug globalConfig) depth;
           maxCallStackDepth := depth |})
  ∧ Info globalConfig rt =
    (let depth := getMaxCallStackDepth globalConfig slog.LevelInfo in
     Ok {| logger := infoLogger;
           attrs := autoAttrs rt (cfgInfo globalConfig) depth;
           maxCallStackDepth := depth |})
  ∧ Warn globalConfig rt =
    (let depth := getMaxCallStackDepth globalConfig slog.LevelWarn in
     Ok {| logger := warnLogger;
           attrs := autoAttrs rt (cfgWarn globalConfig) depth;
           maxCallStackDepth := depth |})
  ∧ Error globalConfig rt =
    (let depth := getMaxCallStackDepth globalConfig slog.LevelError in
     Ok {| logger := errorLogger;
           attrs := autoAttrs rt (cfgError globalConfig) depth;
           maxCallStackDepth := depth |}).
Proof.
  unfold Debug, Info, Warn, Error, newLogger. cbv zeta.
  repeat split.
  - by rewrite (applyAutoFeatures_selected _ _ _ _ (cfgDebug globalConfig))
      by tauto.
  - by rewrite (applyAutoFeatures_selected _ _ _ _ (cfgInfo globalConfig))
      by tauto.
  - by rewrite (applyAutoFeatures_selected _ _ _ _ (cfgWarn globalConfig))
      by tauto.
  - by rewrite (applyAutoFeatures_selected _ _ _ _ (cfgError globalConfig))
      by tauto.
Qed.

(** X5.  A constructor reads the configuration of its own level only:
    two configurations that agree on a level give the same builder for
    that level. *)
Theorem constructors_read_their_level_only (c1 c2 : logConfig) (rt : Runtime) :
  (cfgDebug c1 = cfgDebug c2 → Debug c1 rt = Debug c2 rt)
  ∧ (cfgInfo c1 = cfgInfo c2 → Info c1 rt = Info c2 rt)
  ∧ (cfgWarn c1 = cfgWarn c2 → Warn c1 rt = Warn c2 rt)
  ∧ (cfgError c1 = cfgError c2 → Error c1 rt = Error c2 rt).
Proof.
  destruct (getMaxCallStackDepth_selected c1 c2) as (Hd & Hi & Hw & He).
  unfold Debug, Info, Warn, Error, newLogger.
  repeat split; intros Hc.
  - rewrite (applyAutoFeatures_selected c1 _ _ _ (cfgDebug c1)) by tauto.
    rewrite (applyAutoFeatures_selected c2 _ _ _ (cfgDebug c2)) by tauto.
    cbn [logger attrs maxCallStackDepth]. by rewrite (Hd Hc), Hc.
  - rewrite (applyAutoFeatures_selected c1 _ _ _ (cfgInfo c1)) by tauto.
    rewrite (applyAutoFeatures_selected c2 _ _ _ (cfgInfo c2)) by tauto.
    cbn [logger attrs maxCallStackDepth]. by rewrite (Hi Hc), Hc.
  - rewrite (applyAutoFeatures_selected c1 _ _ _ (cfgWarn c1)) by tauto.
    rewrite (applyAutoFeatures_selected c2 _ _ _ (cfgWarn c2)) by tauto.
    cbn [logger attrs maxCallStackDepth]. by rewrite (Hw Hc), Hc.
  - rewrite (applyAutoFeatures_selected c1 _ _ _ (cfgError c1)) by tauto.
    rewrite (applyAutoFeatures_selected c2 _ _ _ (cfgError c2)) by tauto.
    cbn [logger attrs maxCallStackDepth]. by rewrite (He Hc), Hc.
Qed.

Lemma constructors_read_their_level_only_witness :
  Error (AutoSourceConfig slog.LevelDebug true errorConfig) orderRuntime
  = Error errorConfig orderRuntime.
Proof.
  apply (constructors_read_their_level_only
           (AutoSourceConfig slog.LevelDebug true errorConfig) errorConfig
           orderRuntime).
  reflexivity.
Defined.

(** ** The separator search *)

Lemma prefix_slash (s : string) :
  String.prefix "/" s = true ↔ ∃ rest, s = String "/"%char rest.
Proof.
  destruct s as [|c s].
  - split; [discriminate|]. intros [rest Hr]. discriminate.
  - change (String.prefix "/" (String c s))
      with (if Ascii.ascii_dec "/"%char c then String.prefix "" s else false).
    destruct (Ascii.ascii_dec "/"%char c) as [<-|Hne].
    + split; [eauto|]. intros _. by destruct s.
    + split; [discriminate|]. intros [rest [= Hc _]]. by subst c.
Qed.

Lemma LastIndex_from_slash (s : string) (i : Z) :
  0 ≤ i →
  (strings.LastIndex_from s "/" i = -1
   ∧ ("/"%char ∉ String.list_ascii_of_string s))
  ∨ ∃ pre short,
      s = pre +:+ String "/"%char short
      ∧ ("/"%char ∉ String.list_ascii_of_string short)
      ∧ strings.LastIndex_from s "/" i = i + Z.of_nat (String.length pre).
Proof.
  revert i. induction s as [|c s IH]; intros i Hi.
  - left. split; [reflexivity|]. cbn. apply not_elem_of_nil.
  - cbn [strings.LastIndex_from].
    destruct (IH (i + 1)) as [[Hn Hnot]|(pre & short & -> & Hshort & Hr)];
      [lia| |].
    + rewrite Hn. cbn [Z.eqb].
      destruct (String.prefix "/" (String c s)) eqn:Hp.
      * apply prefix_slash in Hp as [rest [= -> ->]].
        right. exists "", rest. split; [done|]. split; [done|]. cbn. lia.
      * left. split; [done|]. cbn [String.list_ascii_of_string].
        rewrite not_elem_of_cons. split; [|done].
        intros <-. assert (String.prefix "/" (String "/"%char s) = true) as E
          by (apply prefix_slash; eauto). congruence.
    + rewrite Hr.
      destruct (Z.eqb_spec (i + 1 + Z.of_nat (String.length pre)) (-1)); [lia|].
      right. exists (String c pre), short. split; [done|]. split; [done|].
      cbn [String.length]. lia.
Qed.

Lemma string_length_app (a b : string) :
  String.length (a +:+ b) = (String.length a + String.length b)%nat.
Proof.
  induction a as [|c a IH]; [done|].
  rewrite string_app_cons. cbn [String.length]. by rewrite IH.
Qed.

Lemma string_drop_app (pre rest : string) :
  string_drop (String.length pre) (pre +:+ rest) = rest.
Proof. induction pre as [|c pre IH]; [done|]. exact IH. Qed.

(** The name written for a function: the text after the last "/". *)
Lemma short_name (name : string) :
  ∃ pre short,
    name = pre +:+ short
    ∧ ("/"%char ∉ String.list_ascii_of_string short)
    ∧ (pre = "" ∨ ∃ dir, pre = dir +:+ "/")
    ∧ (if negb (strings.LastIndex name "/" =? -1)
       then sliceFrom name (strings.LastIndex name "/" + 1)
       else Ok name) = Ok short.
Proof.
  unfold strings.LastIndex.
  destruct (LastIndex_from_slash name 0)
    as [[Hn Hnot]|(pre & short & -> & Hshort & Hr)]; [lia| |].
  - exists "", name. rewrite Hn. by repeat split; [|left].
  - exists (pre +:+ "/"), short. rewrite Hr.
    destruct (Z.eqb_spec (0 + Z.of_nat (String.length pre)) (-1)); [lia|].
    cbn [negb].
    assert (pre +:+ String "/"%char short = (pre +:+ "/") +:+ short) as E.
    { by rewrite string_app_assoc. }
    split; [done|]. split; [done|]. split; [right; eauto|].
    rewrite sliceFrom_in_range.
    + f_equal. rewrite E.
      replace (Z.to_nat (0 + Z.of_nat (String.length pre) + 1))
        with (String.length (pre +:+ "/")).
      * apply string_drop_app.
      * rewrite string_length_app. cbn. lia.
    + rewrite string_length_app. cbn [String.length]. lia.
Qed.

(** X6.  For a frame whose function is known, the name
    [getSourceString] writes after ['#'] is the part of the function
    name after its last ['/']: it contains no ['/'], and what was cut
    off is empty or ends with ['/']. *)
Theorem getSourceString_strips_module_path (rt : Runtime) (skip pc : Z)
    (file : string) (line : Z) (fn : Func) :
  Caller rt skip = (pc, file, line, true) →
  FuncForPC rt pc = Some fn →
  ∃ pre short,
    Name fn = pre +:+ short
    ∧ ("/"%char ∉ String.list_ascii_of_string short)
    ∧ (pre = "" ∨ ∃ dir, pre = dir +:+ "/")
    ∧ getSourceString rt skip =
        Ok ("#" +:+ short +:+ " @ " +:+ file +:+ ":" +:+ strconv.FormatInt line,
            true).
Proof.
  intros HC Hfn. destruct (short_name (Name fn)) as (pre & short & Hn & Hs & Hp & Hsl).
  exists pre, short. split; [done|]. split; [done|]. split; [done|].
  unfold getSourceString. rewrite HC. cbn [negb]. rewrite Hfn. cbv zeta.
  rewrite Hsl. cbn [mbind outcome_bind].
  by rewrite !string_app_assoc, string_app_nil_l.
Qed.

Lemma getSourceString_strips_module_path_witness :
  ∃ pre short,
    "example.com/app/order.ProcessOrder" = pre +:+ short
    ∧ ("/"%char ∉ String.list_ascii_of_string short)
    ∧ (pre = "" ∨ ∃ dir, pre = dir +:+ "/")
    ∧ getSourceString orderRuntime 2 =
        Ok ("#" +:+ short +:+ " @ " +:+ "/app/order.go" +:+ ":"
              +:+ strconv.FormatInt 42, true).
Proof.
  apply (getSourceString_strips_module_path orderRuntime 2 102
           "/app/order.go" 42
           {| Name := "example.com/app/order.ProcessOrder" |});
    reflexivity.
Defined.

(** ** The source attribute *)

Lemma WithSourceSkip_frameAt (rt : Runtime) (z : zlogImpl) (skip : Z) :
  WithSourceSkip rt z skip =
    Ok (match frameAt rt (2 + skip) with
        | Some source => appendAttr z (slog.String_ "source" source)
        | None => z
        end).
Proof.
  unfold WithSourceSkip. rewrite getSourceString_frameAt.
  by destruct (frameAt rt (2 + skip)).
Qed.



(** ** More on the walk *)

Lemma probeCount_mono (rt : Runtime) (fuel fuel' : nat) (skip : Z) :
  (fuel ≤ fuel')%nat →
  (probeCount rt fuel skip ≤ probeCount rt fuel' skip)%nat.
Proof.
  revert fuel' skip. induction fuel as [|fuel IH]; intros fuel' skip Hle;
    [cbn; lia|].
  destruct fuel' as [|fuel']; [lia|]. cbn [probeCount].
  destruct (stopsAt rt skip); [lia|].
  specialize (IH fuel' (skip + 1)). lia.
Qed.

Lemma walkLength_mono (rt : Runtime) (start maxDepth maxDepth' : Z) :
  maxDepth ≤ maxDepth' →
  walkLength rt start maxDepth ≤ walkLength rt start maxDepth'.
Proof.
  intros Hle. unfold walkLength.
  pose proof (probeCount_mono rt (Z.to_nat (maxDepth - start))
                (Z.to_nat (maxDepth' - start)) start). lia.
Qed.

(** X8.  Raising the depth only extends the walk: for
    [maxDepth <= maxDepth'] the skips tried and the call stack collected
    with [maxDepth] are prefixes of those with [maxDepth']. *)
Theorem deeper_walk_extends_call_stack (rt : Runtime)
    (start maxDepth maxDepth' : Z) :
  maxDepth ≤ maxDepth' →
  ∃ w w',
    collectCallStack rt start maxDepth = Ok w
    ∧ collectCallStack rt start maxDepth' = Ok w'
    ∧ probed w `prefix_of` probed w'
    ∧ callStack w `prefix_of` callStack w'.
Proof.
  intros Hle. eexists _, _.
  split; [apply collectCallStack_walk|].
  split; [apply collectCallStack_walk|]. cbn [probed callStack].
  pose proof (walkLength_mono rt start maxDepth maxDepth' Hle) as Hm.
  pose proof (walkLength_range rt start maxDepth) as Hr.
  replace (walkLength rt start maxDepth')
    with (walkLength rt start maxDepth
          + (walkLength rt start maxDepth' - walkLength rt start maxDepth))
    by lia.
  rewrite seqZ_app by lia. rewrite omap_app.
  split; eexists; reflexivity.
Qed.

Lemma deeper_walk_extends_call_stack_witness :
  ∃ w w',
    collectCallStack deepRuntime 2 5 = Ok w
    ∧ collectCallStack deepRuntime 2 10 = Ok w'
    ∧ probed w `prefix_of` probed w'
    ∧ callStack w `prefix_of` callStack w'.
Proof. apply (deeper_walk_extends_call_stack deepRuntime 2 5 10). lia. Defined.

Lemma length_omap_all {A B} (f : A → option B) (l : list A) :
  (∀ x, x ∈ l → is_Some (f x)) →
  length (omap f l) = length l.
Proof.
  induction l as [|x l IH]; intros H; [done|]. cbn [omap list_omap].
  destruct (H x) as [y Hy]; [apply list_elem_of_here|]. rewrite Hy. cbn.
  f_equal. apply IH. intros x' Hx'. apply H. by apply list_elem_of_further.
Qed.

(** X9.  On a stack where every skip from [start] up to [maxDepth] has
    a frame and none is the entry point, the walk tries all of them and
    collects exactly [max 0 (maxDepth - start)] frames, the [i]-th being
    the frame at the [i]-th skip. *)
Theorem walk_of_a_deep_stack (rt : Runtime) (start maxDepth : Z) :
  (∀ k, start ≤ k < maxDepth →
        snd (Caller rt k) = true ∧ stopsAt rt k = false) →
  ∃ w,
    collectCallStack rt start maxDepth = Ok w
    ∧ probed w = seqZ start (maxDepth - start)
    ∧ Z.of_nat (length (callStack w)) = Z.max 0 (maxDepth - start)
    ∧ ∀ i k, probed w !! i = Some k → frameAt rt k = callStack w !! i.
Proof.
  intros H. eexists. split; [apply collectCallStack_walk|].
  cbn [probed callStack].
  assert (walkLength rt start maxDepth = Z.max 0 (maxDepth - start)) as E.
  { unfold walkLength. rewrite probeCount_no_stop; [lia|].
    intros k Hk. apply H. lia. }
  rewrite E.
  assert (seqZ start (Z.max 0 (maxDepth - start))
          = seqZ start (maxDepth - start)) as ->.
  { destruct (Z_le_gt_dec 0 (maxDepth - start)).
    - by rewrite Z.max_r by lia.
    - rewrite Z.max_l by lia. by rewrite !seqZ_nil by lia. }
  split; [done|].
  assert (∀ k, k ∈ seqZ start (maxDepth - start) → is_Some (frameAt rt k))
    as Hall.
  { intros k Hk. apply elem_of_seqZ in Hk.
    destruct (frameAt rt k) eqn:Hf; [eauto|].
    apply frameAt_None in Hf. destruct (H k) as [Hc _]; [lia|]. congruence. }
  split.
  { rewrite length_omap_all by done. rewrite length_seqZ. lia. }
  clear E. revert Hall. generalize (seqZ start (maxDepth - start)).
  intros l. induction l as [|x l IH]; intros Hall i k Hi; [done|].
  cbn [omap list_omap].
  destruct (Hall x) as [y Hy]; [apply list_elem_of_here|]. rewrite Hy.
  destruct i as [|i]; cbn in *.
  - by injection Hi as ->.
  - apply IH; [|done]. intros x' Hx'. apply Hall.
    by apply list_elem_of_further.
Qed.

Lemma walk_of_a_deep_stack_witness :
  ∃ w,
    collectCallStack deepRuntime 3 20 = Ok w
    ∧ probed w = seqZ 3 (20 - 3)
    ∧ Z.of_nat (length (callStack w)) = Z.max 0 (20 - 3)
    ∧ ∀ i k, probed w !! i = Some k → frameAt deepRuntime k = callStack w !! i.
Proof.
  apply (walk_of_a_deep_stack deepRuntime 3 20).
  intros k _. split; reflexivity.
Defined.

(** X10.  With a depth above 2 and a frame at skip 2, the string
    [WithSource] attaches is the first element of the call stack
    [WithCallStack] attaches. *)
Theorem WithSource_is_head_of_WithCallStack (rt : Runtime) (z : zlogImpl)
    (source : string) :
  2 < maxCallStackDepth z →
  frameAt rt 2 = Some source →
  WithSource rt z = Ok (appendAttr z (slog.String_ "source" source))
  ∧ ∃ rest,
      WithCallStack rt z
      = Ok (appendAttr z (slog.AnyStrings "callstack" (source :: rest))).
Proof.
  intros Hd Hf. split.
  - change (WithSource rt z) with (WithSourceSkip rt z 0).
    rewrite WithSourceSkip_frameAt. change (2 + 0) with 2. by rewrite Hf.
  - rewrite (WithCallStack_collect rt z _ (collectCallStack_walk rt 2 _)).
    cbn [callStack].
    pose proof (walkLength_pos rt 2 (maxCallStackDepth z) Hd) as Hp.
    replace (walkLength rt 2 (maxCallStackDepth z))
      with (1 + (walkLength rt 2 (maxCallStackDepth z) - 1)) by lia.
    rewrite seqZ_app by lia. rewrite omap_app.
    change (seqZ 2 1) with [2]. cbn [omap list_omap]. rewrite Hf.
    eexists. reflexivity.
Qed.

Lemma WithSource_is_head_of_WithCallStack_witness :
  WithSource orderRuntime (emptyLogger errorLogger 10)
  = Ok (appendAttr (emptyLogger errorLogger 10)
          (slog.String_ "source" "#order.ProcessOrder @ /app/order.go:42"))
  ∧ ∃ rest,
      WithCallStack orderRuntime (emptyLogger errorLogger 10)
      = Ok (appendAttr (emptyLogger errorLogger 10)
              (slog.AnyStrings "callstack"
                 ("#order.ProcessOrder @ /app/order.go:42" :: rest))).
Proof.
  apply (WithSource_is_head_of_WithCallStack orderRuntime
           (emptyLogger errorLogger 10)
           "#order.ProcessOrder @ /app/order.go:42").
  - cbn; lia.
  - reflexivity.
Defined.

(** ** Fluent chains *)

(** A builder that kept its logger and depth and got at most [n]
    attributes appended. *)
Lemma enrich_ok (z : zlogImpl) (e : enrichment) :
  passesNilError e = false →
  ∃ z' new,
    enrich z e = Ok z'
    ∧ logger z' = logger z
    ∧ maxCallStackDepth z' = maxCallStackDepth z
    ∧ attrs z' = attrs z ++ new
    ∧ (length new ≤ 1)%nat.
Proof.
  intros Hn. destruct e as [ctx keys|m d|err|err| |rt|rt skip|rt];
    cbn [enrich].
  - unfold Context_. destruct (size (buildContextMap ctx keys) =? 0)%nat.
    + exists z, []. rewrite app_nil_r. repeat split; cbn; lia.
    + eexists _, [_]. repeat split; cbn; lia.
  - eexists _, [_]. repeat split; cbn; lia.
  - destruct err as [e|]; [|discriminate]. eexists _, [_]. repeat split; cbn; lia.
  - destruct err as [e|]; [|discriminate]. eexists _, [_]. repeat split; cbn; lia.
  - eexists _, [_]. repeat split; cbn; lia.
  - change (WithSource rt z) with (WithSourceSkip rt z 0).
    rewrite WithSourceSkip_frameAt. destruct (frameAt rt (2 + 0)).
    + eexists _, [_]. repeat split; cbn; lia.
    + exists z, []. rewrite app_nil_r. repeat split; cbn; lia.
  - rewrite WithSourceSkip_frameAt. destruct (frameAt rt (2 + skip)).
    + eexists _, [_]. repeat split; cbn; lia.
    + exists z, []. rewrite app_nil_r. repeat split; cbn; lia.
  - rewrite (WithCallStack_collect rt z _ (collectCallStack_walk rt 2 _)).
    eexists _, [_]. repeat split; cbn; lia.
Qed.

Lemma enrich_nil_error (z : zlogImpl) (e : enrichment) :
  passesNilError e = true → enrich z e = Panic NilPointerDereference.
Proof. destruct e as [| |[|]|[|]| | | |]; try discriminate; reflexivity. Qed.



(** ** Segment paths *)

Lemma Join_cons (e : string) (rest : list string) (sep : string) :
  rest ≠ [] →
  strings.Join (e :: rest) sep = e +:+ sep +:+ strings.Join rest sep.
Proof. by destruct rest. Qed.

Lemma Join_app (d1 d2 : list string) (sep : string) :
  d1 ≠ [] → d2 ≠ [] →
  strings.Join (d1 ++ d2) sep
    = strings.Join d1 sep +:+ sep +:+ strings.Join d2 sep.
Proof.
  intros H1 H2. induction d1 as [|e d1 IH]; [done|].
  destruct d1 as [|e' d1].
  - cbn [app]. by rewrite Join_cons.
  - rewrite <- app_comm_cons, Join_cons by by destruct d2.
    rewrite IH by done. rewrite (Join_cons e) by done.
    by rewrite !string_app_assoc.
Qed.

(** X12.  Detail segments can be added in two steps:
    [Segment(m, d1..., d2...)] attaches the path [Segment(p, d2...)]
    attaches, [p] being the path of [Segment(m, d1...)]. *)
Theorem Segment_extends_path (z : zlogImpl) (mainSegment : string)
    (d1 d2 : list string) :
  ∃ path,
    Segment z mainSegment d1 = appendAttr z (slog.String_ "segment" path)
    ∧ Segment z mainSegment (d1 ++ d2) = Segment z path d2.
Proof.
  unfold Segment. eexists. split; [reflexivity|].
  destruct d1 as [|e d1].
  - reflexivity.
  - destruct d2 as [|e2 d2].
    + by rewrite app_nil_r.
    + rewrite Join_app by done. cbn [length Nat.ltb Nat.leb app].
      do 2 f_equal. by rewrite !string_app_assoc.
Qed.

(** ** Context keys *)

(** X13.  [Context] depends on the set of keys only: neither the order
    of the keys nor a repeated key changes the builder returned. *)
Theorem Context_depends_on_key_set (z : zlogImpl) (ctx : Context)
    (keys keys' : list string) :
  (∀ key, key ∈ keys ↔ key ∈ keys') →
  Context_ z ctx keys = Context_ z ctx keys'.
Proof.
  intros Hk.
  assert (buildContextMap ctx keys = buildContextMap ctx keys') as E.
  { apply map_eq. intros key. apply option_eq. intros v.
    rewrite !buildContextMap_lookup. by rewrite Hk. }
  unfold Context_. by rewrite E.
Qed.

Lemma Context_depends_on_key_set_witness :
  Context_ (emptyLogger infoLogger 5) requestContext
    ["requestID"; "userID"; "requestID"]
  = Context_ (emptyLogger infoLogger 5) requestContext
      ["userID"; "requestID"].
Proof.
  apply (Context_depends_on_key_set (emptyLogger infoLogger 5) requestContext).
  intros key. rewrite !elem_of_cons, !elem_of_nil. tauto.
Defined.

(** ** Redaction in the third version of [Context] *)

Section Redaction.

Variable ToLower : string → string.

Lemma V3_buildContextMap_redacted (ctx : Context) (keys : list string) :
  V3.buildContextMap ToLower ctx keys = buildContextMap (redactedContext ToLower ctx) keys.
Proof.
  unfold V3.buildContextMap, buildContextMap.
  generalize (∅ : gmap string any).
  induction keys as [|key keys IH]; intros m; [done|].
  cbn [fold_left]. rewrite IH. f_equal. cbn [redactedContext Value_].
  by destruct (bool_decide (ToLower key ∈ V3.sensitiveHeaders)).
Qed.


(** X15.  When no listed key is sensitive, the third version of
    [Context] returns what the second version returns. *)
Theorem V3_Context_agrees_without_sensitive_keys (z : zlogImpl)
    (ctx : Context) (keys : list string) :
  (∀ key, key ∈ keys → ToLower key ∉ V3.sensitiveHeaders) →
  V3.Context_ ToLower z ctx keys = Context_ z ctx keys.
Proof.
  intros Hk.
  assert (V3.buildContextMap ToLower ctx keys = buildContextMap ctx keys) as E.
  { apply map_eq. intros key. apply option_eq. intros v.
    rewrite V3_buildContextMap_redacted, !buildContextMap_lookup.
    cbn [redactedContext Value_].
    destruct (decide (key ∈ keys)) as [Hin|Hnin]; [|tauto].
    by rewrite bool_decide_false by auto. }
  unfold V3.Context_, Context_. by rewrite E.
Qed.

End Redaction.


Lemma V3_Context_agrees_without_sensitive_keys_witness :
  V3.Context_ asciiToLower (emptyLogger infoLogger 5) requestContext
    ["userID"; "requestID"]
  = Context_ (emptyLogger infoLogger 5) requestContext ["userID"; "requestID"].
Proof.
  apply (V3_Context_agrees_without_sensitive_keys asciiToLower
           (emptyLogger infoLogger 5) requestContext ["userID"; "requestID"]).
  intros key Hin. apply (proj1 (bool_decide_eq_false _)).
  rewrite !elem_of_cons, elem_of_nil in Hin.
  destruct Hin as [-> | [-> | []]]; vm_compute; reflexivity.
Defined.

Example V3_Context_examples :
  V3.buildContextMap asciiToLower requestContext ["userID"; "Cookie"]
  = <["userID" := AnyString "12345"]>
      (<["Cookie" := AnyString "[REDACTED]"]> ∅).
Proof. vm_compute. reflexivity. Qed.

(** ** The first version of the resolver and of the walk *)

Lemma V1_getSourceString_total (rt : Runtime) (skip : Z) :
  ∃ current, V1.getSourceString rt skip = Ok current.
Proof.
  unfold V1.getSourceString.
  destruct (Caller rt skip) as [[[pc file] line] ok]. cbv zeta.
  destruct (short_name (V1.funcName (FuncForPC rt pc)))
    as (pre & short & _ & _ & _ & ->).
  cbn [mbind outcome_bind]. eauto.
Qed.

Lemma V1_getSourceString_symbol (rt : Runtime) (skip pc : Z) (file : string)
    (line : Z) (fn : Func) (current : string) :
  Caller rt skip = (pc, file, line, true) →
  FuncForPC rt pc = Some fn →
  getSourceString rt skip = Ok (current, true) →
  V1.getSourceString rt skip = Ok current.
Proof.
  intros HC Hfn. unfold getSourceString, V1.getSourceString.
  rewrite HC. cbn [negb]. rewrite Hfn. cbv zeta. cbn [V1.funcName].
  destruct (short_name (Name fn)) as (pre & short & _ & _ & _ & ->).
  cbn [mbind outcome_bind].
  rewrite !string_app_assoc, string_app_nil_l. by intros [= <-].
Qed.

Lemma V1_getSourceString_unavailable (rt : Runtime) (skip : Z) :
  Caller rt skip = (0, "", 0, false) →
  FuncForPC rt 0 = None →
  V1.getSourceString rt skip = Ok "# @ :0".
Proof.
  intros HC Hfn. unfold V1.getSourceString. rewrite HC, Hfn. reflexivity.
Qed.

Section Agreement.

Variable rt : Runtime.
Variable maxDepth : Z.

Hypothesis zero_values :
  ∀ k, snd (Caller rt k) = false → Caller rt k = (0, "", 0, false).
Hypothesis no_symbol_at_zero : FuncForPC rt 0 = None.
Hypothesis symbols_known :
  ∀ k, 2 ≤ k < maxDepth → snd (Caller rt k) = true →
       is_Some (FuncForPC rt (fst (fst (fst (Caller rt k)))))
       ∧ frameAt rt k ≠ Some "# @ :0".

Lemma V1_getSourceString_frameAt (k : Z) :
  2 ≤ k < maxDepth →
  V1.getSourceString rt k =
    Ok (match frameAt rt k with
        | Some current => current
        | None => "# @ :0"
        end)
  ∧ frameAt rt k ≠ Some "# @ :0".
Proof.
  intros Hk. destruct (snd (Caller rt k)) eqn:Hs.
  - destruct (symbols_known k Hk Hs) as [[fn Hfn] Hne]. split; [|done].
    destruct (Caller rt k) as [[[pc file] line] ok] eqn:HC.
    cbn in Hs, Hfn. subst ok.
    destruct (getSourceString_found rt k pc file line HC) as (name & Hg & _).
    rewrite (V1_getSourceString_symbol rt k pc file line fn _ HC Hfn Hg).
    unfold frameAt. by rewrite Hg.
  - rewrite (proj2 (frameAt_None rt k) Hs). split; [|done].
    apply V1_getSourceString_unavailable; [|done]. by apply zero_values.
Qed.

Lemma addCallStackLoop_callStackLoop (fuel : nat) (skip : Z) (w : walk) :
  2 ≤ skip →
  V1.addCallStackLoop rt maxDepth fuel skip w
    = callStackLoop rt maxDepth fuel skip w.
Proof.
  revert skip w. induction fuel as [|fuel IH]; intros skip w Hs; [done|].
  destruct (Z_lt_ge_dec skip maxDepth) as [Hlt|Hge].
  - rewrite callStackLoop_unfold by done. cbn [V1.addCallStackLoop].
    destruct (Z.ltb_spec skip maxDepth); [|lia]. cbn [negb].
    destruct (V1_getSourceString_frameAt skip) as [-> Hne]; [lia|].
    cbn [mbind outcome_bind].
    destruct (frameAt rt skip) as [current|].
    + destruct (String.eqb_spec current "# @ :0") as [->|_]; [done|].
      unfold isEntryFrame.
      destruct (strings.HasPrefix current "#main.main"); [done|].
      apply IH. lia.
    + cbn. apply IH. lia.
  - rewrite callStackLoop_exit by lia. cbn [V1.addCallStackLoop].
    by destruct (Z.ltb_spec skip maxDepth); [lia|].
Qed.

End Agreement.

(** X16.  The first version's [AddCallStack] attaches the call stack
    [WithCallStack] attaches, provided the runtime answers an unavailable
    frame with zero values, has no function at pc 0, and every frame
    below the depth has a known function and does not format to
    "# @ :0". *)
Theorem AddCallStack_agrees_with_WithCallStack (rt : Runtime) (z : zlogImpl) :
  (∀ k, snd (Caller rt k) = false → Caller rt k = (0, "", 0, false)) →
  FuncForPC rt 0 = None →
  (∀ k, 2 ≤ k < maxCallStackDepth z → snd (Caller rt k) = true →
        is_Some (FuncForPC rt (fst (fst (fst (Caller rt k)))))
        ∧ frameAt rt k ≠ Some "# @ :0") →
  V1.AddCallStack rt z = WithCallStack rt z.
Proof.
  intros Hz Hn Hs. unfold V1.AddCallStack, WithCallStack, collectCallStack.
  by rewrite (addCallStackLoop_callStackLoop rt (maxCallStackDepth z) Hz Hn Hs)
    by lia.
Qed.

Lemma AddCallStack_agrees_with_WithCallStack_witness :
  V1.AddCallStack gapRuntime (emptyLogger errorLogger 10)
  = WithCallStack gapRuntime (emptyLogger errorLogger 10).
Proof.
  apply (AddCallStack_agrees_with_WithCallStack gapRuntime
           (emptyLogger errorLogger 10)).
  - intros k. cbn [gapRuntime Caller orderRuntime stackRuntime].
    destruct (k =? 3); [done|]. destruct (k <? 0); [done|].
    destruct (_ !! Z.to_nat k) as [[[pc file] line]|]; [discriminate|done].
  - reflexivity.
  - cbn [emptyLogger maxCallStackDepth]. intros k Hk.
    assert (k = 2 ∨ k = 3 ∨ k = 4 ∨ k = 5 ∨ k = 6 ∨ k = 7 ∨ k = 8 ∨ k = 9)
      as [-> | [-> | [-> | [-> | [-> | [-> | [-> | ->]]]]]]] by lia;
      vm_compute; intros Hc; try discriminate;
      (split; [eexists; reflexivity | discriminate]).
Defined.

(** X17.  The first version's [AddSource] does not check the resolver's
    answer: it never panics and always appends one ["source"] attribute.
    For an unavailable frame (zero values, no function at pc 0) the
    value is "# @ :0", where [WithSource] leaves the builder unchanged;
    for a frame whose function is unknown the name is empty, where
    [getSourceString] of the second version writes "?". *)
Theorem V1_AddSource_always_attaches (rt : Runtime) (z : zlogImpl) :
  ∃ source,
    V1.getSourceString rt 2 = Ok source
    ∧ V1.AddSource rt z = Ok (appendAttr z (slog.String_ "source" source))
    ∧ (Caller rt 2 = (0, "", 0, false) → FuncForPC rt 0 = None →
       source = "# @ :0" ∧ WithSource rt z = Ok z)
    ∧ (∀ pc file line,
         Caller rt 2 = (pc, file, line, true) → FuncForPC rt pc = None →
         source = "#" +:+ "" +:+ " @ " +:+ file +:+ ":"
                    +:+ strconv.FormatInt line
         ∧ getSourceString rt 2
           = Ok ("#" +:+ "?" +:+ " @ " +:+ file +:+ ":"
                   +:+ strconv.FormatInt line, true)).
Proof.
  destruct (V1_getSourceString_total rt 2) as [source Hs].
  exists source. split; [done|]. split.
  { unfold V1.AddSource. by rewrite Hs. }
  split.
  - intros HC Hfn.
    rewrite (V1_getSourceString_unavailable rt 2 HC Hfn) in Hs.
    split; [congruence|].
    change (WithSource rt z) with (WithSourceSkip rt z 0).
    rewrite WithSourceSkip_frameAt. change (2 + 0) with 2.
    rewrite (proj2 (frameAt_None rt 2)); [done|]. by rewrite HC.
  - intros pc file line HC Hfn. split.
    + unfold V1.getSourceString in Hs. rewrite HC, Hfn in Hs.
      cbn in Hs. congruence.
    + destruct (getSourceString_found rt 2 pc file line HC)
        as (name & -> & Hq). by rewrite (Hq Hfn).
Qed.

Lemma V1_AddSource_always_attaches_witness :
  ∃ source,
    V1.AddSource (stackRuntime [] []) (emptyLogger infoLogger 5)
    = Ok (appendAttr (emptyLogger infoLogger 5) (slog.String_ "source" source))
    ∧ source = "# @ :0"
    ∧ WithSource (stackRuntime [] []) (emptyLogger infoLogger 5)
      = Ok (emptyLogger infoLogger 5).
Proof.
  destruct (V1_AddSource_always_attaches (stackRuntime [] [])
              (emptyLogger infoLogger 5)) as (source & _ & Ha & Hu & _).
  exists source. split; [exact Ha|]. apply Hu; reflexivity.
Defined.

(** ** Shape of a collected call stack *)

Lemma frameAt_hash (rt : Runtime) (skip : Z) (current : string) :
  frameAt rt skip = Some current →
  strings.HasPrefix current "#" = true.
Proof.
  unfold frameAt.
  destruct (Caller rt skip) as [[[pc file] line] ok] eqn:HC. destruct ok.
  - destruct (getSourceString_found rt skip pc file line HC) as (name & -> & _).
    intros [= <-]. unfold strings.HasPrefix.
    rewrite string_app_cons, string_app_nil_l.
    by destruct (name +:+ " @ " +:+ file +:+ ":" +:+ strconv.FormatInt line).
  - rewrite getSourceString_not_found by (by rewrite HC). discriminate.
Qed.

(** X18.  Every string of a collected call stack begins with ['#'],
    and no element except possibly the last begins with
    "#main.main". *)
Theorem call_stack_shape (rt : Runtime) (start maxDepth : Z) :
  ∃ w front tail,
    collectCallStack rt start maxDepth = Ok w
    ∧ callStack w = front ++ tail
    ∧ (length tail ≤ 1)%nat
    ∧ Forall (λ c, strings.HasPrefix c "#main.main" = false) front
    ∧ Forall (λ c, strings.HasPrefix c "#" = true) (callStack w).
Proof.
  pose proof (walkLength_range rt start maxDepth) as Hr.
  destruct (Z.eq_dec (walkLength rt start maxDepth) 0) as [E|Hne].
  - exists {| callStack := []; probed := [] |}, [], [].
    rewrite collectCallStack_walk, E. repeat split; cbn; auto.
  - eexists _,
      (omap (frameAt rt) (seqZ start (walkLength rt start maxDepth - 1))),
      (omap (frameAt rt) [start + (walkLength rt start maxDepth - 1)]).
    split; [apply collectCallStack_walk|]. cbn [callStack].
    split.
    { rewrite <- omap_app. f_equal.
      replace (walkLength rt start maxDepth)
        with ((walkLength rt start maxDepth - 1) + 1) at 1 by lia.
      by rewrite seqZ_app by lia. }
    split.
    { cbn [omap list_omap]. destruct (frameAt rt _); cbn; lia. }
    split.
    { apply (frames_before_stop rt start (walkLength rt start maxDepth - 1)).
      intros j Hj. unfold walkLength in *.
      apply (probeCount_before_last rt (Z.to_nat (maxDepth - start)) start).
      lia. }
    apply Forall_forall. intros c Hc.
    apply list_elem_of_omap in Hc as (k & _ & Hk). by apply (frameAt_hash rt k).
Qed.

(** ** The constructors' walk against [WithCallStack] *)

Lemma probeCount_shift (rt rt' : Runtime) (fuel : nat) (skip : Z) :
  (∀ k, skip ≤ k → getSourceString rt' (k + 1) = getSourceString rt k) →
  probeCount rt' fuel (skip + 1) = probeCount rt fuel skip.
Proof.
  revert skip. induction fuel as [|fuel IH]; intros skip H; [done|].
  cbn [probeCount]. unfold stopsAt, frameAt. rewrite H by lia.
  destruct (match getSourceString rt skip with
            | Ok (current, true) => Some current
            | _ => None
            end) as [current|];
    [destruct (isEntryFrame current); [done|]|];
    f_equal; apply IH; intros k Hk; apply H; lia.
Qed.

Lemma omap_frameAt_shift (rt rt' : Runtime) (skip n : Z) :
  (∀ k, skip ≤ k → getSourceString rt' (k + 1) = getSourceString rt k) →
  omap (frameAt rt') (seqZ (skip + 1) n) = omap (frameAt rt) (seqZ skip n).
Proof.
  destruct (Z_le_gt_dec n 0) as [Hn|Hn]; [by rewrite !seqZ_nil by lia|].
  rewrite <- (Z2Nat.id n) by lia. generalize (Z.to_nat n). clear n Hn.
  intros m. revert skip. induction m as [|m IH]; intros skip H; [done|].
  rewrite !seqZ_succ_cons. cbn [omap list_omap].
  assert (frameAt rt' (skip + 1) = frameAt rt skip) as ->.
  { unfold frameAt. by rewrite H by lia. }
  rewrite IH; [done|]. intros k Hk. apply H. lia.
Qed.

(** X19.  The walk of the [Error] constructor starts one skip later
    than the walk of [WithCallStack] and stops at the same bound: when
    the constructor's stack is the caller's stack with one more frame in
    front, the call stack it attaches is the one [WithCallStack]
    attaches on a builder whose depth is one less. *)
Theorem auto_callstack_is_one_frame_shorter (globalConfig : logConfig)
    (rt rt' : Runtime) (z : zlogImpl) :
  (∀ k, 2 ≤ k → getSourceString rt' (k + 1) = getSourceString rt k) →
  AutoCallStack (cfgError globalConfig) = true →
  AutoSource (cfgError globalConfig) = false →
  maxCallStackDepth z = getMaxCallStackDepth globalConfig slog.LevelError - 1 →
  ∃ cs,
    Error globalConfig rt' =
      Ok {| logger := errorLogger;
            attrs := [slog.AnyStrings "callstack" cs];
            maxCallStackDepth :=
              getMaxCallStackDepth globalConfig slog.LevelError |}
    ∧ WithCallStack rt z = Ok (appendAttr z (slog.AnyStrings "callstack" cs)).
Proof.
  intros Hshift Hcs Hsrc Hz.
  exists (omap (frameAt rt) (seqZ 2 (walkLength rt 2 (maxCallStackDepth z)))).
  split.
  - unfold Error, newLogger.
    rewrite (applyAutoFeatures_selected _ _ _ _ (cfgError globalConfig))
      by tauto.
    unfold autoAttrs. rewrite Hcs, Hsrc.
    cbn [logger attrs maxCallStackDepth app]. do 4 f_equal.
    assert (walkLength rt' 3 (getMaxCallStackDepth globalConfig slog.LevelError)
            = walkLength rt 2 (maxCallStackDepth z)) as ->.
    { unfold walkLength. rewrite Hz.
      replace (Z.to_nat
                 (getMaxCallStackDepth globalConfig slog.LevelError - 3))
        with (Z.to_nat
                (getMaxCallStackDepth globalConfig slog.LevelError - 1 - 2))
        by lia.
      f_equal. by apply (probeCount_shift rt rt' _ 2). }
    by apply (omap_frameAt_shift rt rt' 2).
  - by rewrite (WithCallStack_collect rt z _ (collectCallStack_walk rt 2 _)).
Qed.

Lemma auto_callstack_is_one_frame_shorter_witness :
  ∃ cs,
    Error (Configure [AutoCallStackConfig slog.LevelError true;
                      MaxCallStackDepthConfig slog.LevelError 8])
      deepRuntime
    = Ok {| logger := errorLogger;
            attrs := [slog.AnyStrings "callstack" cs];
            maxCallStackDepth := 8 |}
    ∧ WithCallStack deepRuntime (emptyLogger errorLogger 7)
      = Ok (appendAttr (emptyLogger errorLogger 7)
              (slog.AnyStrings "callstack" cs)).
Proof.
  apply (auto_callstack_is_one_frame_shorter
           (Configure [AutoCallStackConfig slog.LevelError true;
                       MaxCallStackDepthConfig slog.LevelError 8])
           deepRuntime deepRuntime (emptyLogger errorLogger 7));
    reflexivity.
Defined.
